(** * AudioProvider: the enrichment pipeline of the music player

    A shallow embedding of [context/AudioProvider.tsx]: the token request,
    the device scan, the per-track catalog lookup, the cached snapshot and
    the initialisation effect, followed by the properties of the
    specification that concern them.

    Conventions of the embedding.
    - A JavaScript string is represented by its UTF-8 encoding, one [ascii]
      per byte.  Every string without a lone surrogate has exactly one such
      representation; [split], [encodeURIComponent] and the JSON quoting
      rules act on it byte by byte exactly as they act on the code points.
    - An [async] function is a state transformer that ends in a value, in a
      thrown exception or never ([Pending]); [await] of a settled promise is
      sequencing.
    - The platform (network, device media store, connectivity, storage
      faults) is a record [Env] of answers, so that every theorem is
      quantified over all platforms. *)

From Stdlib Require Import String Ascii List ZArith NArith Lia Bool.
From stdpp Require Import gmap strings list.

Open Scope string_scope.

(* ================================================================== *)
(** ** Characters and strings *)

Definition quot : ascii := Eval cbv in ascii_of_N 34.
Definition backslash : ascii := Eval cbv in ascii_of_N 92.

(** One hexadecimal digit, in upper case ([encodeURIComponent]) or lower
    case ([JSON.stringify]). *)
Definition hexDigit (upper : bool) (n : N) : ascii :=
  if (n <? 10)%N then ascii_of_N (48 + n)
  else ascii_of_N ((if upper then 55 else 87) + n).

Definition hex2 (upper : bool) (c : ascii) : string :=
  let n := N_of_ascii c in
  String (hexDigit upper (n / 16)) (String (hexDigit upper (n mod 16)) "").

Definition hexValue (c : ascii) : option N :=
  let n := N_of_ascii c in
  if (48 <=? n)%N && (n <=? 57)%N then Some (n - 48)%N
  else if (65 <=? n)%N && (n <=? 70)%N then Some (n - 55)%N
  else if (97 <=? n)%N && (n <=? 102)%N then Some (n - 87)%N
  else None.

(** [String.prototype.split] with a one-character separator: the pieces
    between the separators, never an empty array. *)
Fixpoint split (sep : ascii) (s : string) : list string :=
  match s with
  | "" => [""]
  | String c r =>
      if Ascii.eqb c sep then "" :: split sep r
      else match split sep r with
           | piece :: pieces => String c piece :: pieces
           | [] => [String c ""]
           end
  end.

(** The characters [encodeURIComponent] leaves alone:
    [A-Z a-z 0-9 - _ . ! ~ * ' ( )]. *)
Definition uriUnreserved (c : ascii) : bool :=
  let n := N_of_ascii c in
  ((65 <=? n)%N && (n <=? 90)%N) || ((97 <=? n)%N && (n <=? 122)%N)
  || ((48 <=? n)%N && (n <=? 57)%N)
  || existsb (Ascii.eqb c) ["-"; "_"; "."; "!"; "~"; "*"; "'"; "("; ")"]%char.

(** [encodeURIComponent]: every other byte of the UTF-8 encoding becomes
    [%XX]. *)
Fixpoint encodeURIComponent (s : string) : string :=
  match s with
  | "" => ""
  | String c r =>
      (if uriUnreserved c then String c "" else String "%" (hex2 true c))
        ++ encodeURIComponent r
  end.

(** Template-literal interpolation [${x}] of a possibly undefined string. *)
Definition interpolate (x : option string) : string :=
  match x with Some s => s | None => "undefined" end.

(* ================================================================== *)
(** ** JavaScript values of type [any]

    The body of an axios response is JSON data; the provider reads it
    without any check, so property access follows the dynamic rules. *)

#[local] Set Warnings "-register-all".

Inductive JsVal :=
| JUndefined
| JNull
| JBool (b : bool)
| JNum (n : Z)
| JStr (s : string)
| JArr (items : list JsVal)
| JObj (props : list (string * JsVal)).

Inductive Exn :=
| TypeError
| SyntaxError
| AxiosError
| StorageError
| MediaLibraryError
| Error (message : string).

(** [if (v)]. *)
Definition truthy (v : JsVal) : bool :=
  match v with
  | JUndefined | JNull => false
  | JBool b => b
  | JNum n => negb (n =? 0)%Z
  | JStr s => negb (String.eqb s "")
  | JArr _ | JObj _ => true
  end.

Definition nullish (v : JsVal) : bool :=
  match v with JUndefined | JNull => true | _ => false end.

Fixpoint lookupProp (k : string) (props : list (string * JsVal)) : JsVal :=
  match props with
  | [] => JUndefined
  | (k', v) :: rest => if String.eqb k k' then v else lookupProp k rest
  end.

(** [v.k] for the property names the provider reads ([tracks], [items],
    [album], [images], [artists], [url], [name], [access_token]): a
    [TypeError] on [undefined] and [null], the property of an object,
    [undefined] on arrays and primitives, which have none of these. *)
Definition getProp (v : JsVal) (k : string) : Exn + JsVal :=
  match v with
  | JUndefined | JNull => inl TypeError
  | JObj props => inr (lookupProp k props)
  | _ => inr JUndefined
  end.

(** [v[0]].  Of a string only the presence of a first character matters
    to the provider, which never reads the character itself. *)
Definition getFirst (v : JsVal) : Exn + JsVal :=
  match v with
  | JUndefined | JNull => inl TypeError
  | JArr items => inr (match items with x :: _ => x | [] => JUndefined end)
  | JObj props => inr (lookupProp "0" props)
  | JStr (String c _) => inr (JStr (String c ""))
  | _ => inr JUndefined
  end.

(** [v?.k]. *)
Definition getPropOpt (v : JsVal) (k : string) : Exn + JsVal :=
  if nullish v then inr JUndefined else getProp v k.

(** The unchecked assignment of an [any] to a [string | undefined] field.
    Values of another type violate the interface [AudioFile]; they are
    outside the data model and read as unset.  The statements about an
    assigned value therefore speak of strings and of [undefined] only
    ([copied], [typedAnswer], [rawToken]). *)
Definition asOptString (v : JsVal) : option string :=
  match v with JStr s => Some s | _ => None end.

(* ================================================================== *)
(** ** The data model *)

Record AudioFile := mkAudioFile {
  id : string;
  filename : string;
  uri : string;
  albumCover : option string;
  artist : option string;
  album : option string
}.

Record AudioContextType := mkAudioContext {
  ctxAudioFiles : list AudioFile;
  ctxLoading : bool
}.

(** An asset as [MediaLibrary.getAssetsAsync] reports it. *)
Record Asset := mkAsset {
  assetId : string;
  assetFilename : string;
  assetUri : string
}.

(* ================================================================== *)
(** ** JSON text of a library

    [JSON.stringify] on an [AudioFile[]] and [JSON.parse] on the result.
    The storage key is written by [storeAudioData] alone.  The parser
    covers the JSON texts whose values are arrays of objects with string
    members (in any order, with any white space and escapes of ASCII
    characters); it reports every other text as malformed, also a JSON
    text of another shape.  The statements therefore rely on it only for
    the serialization of a library, which it reads back, and for a text
    that cannot begin a JSON value, which no parser accepts. *)

Module JSON.

(** QuoteJSONString, character by character. *)
Definition quoteChar (c : ascii) : string :=
  let n := N_of_ascii c in
  if (n =? 34)%N then String backslash (String quot "")
  else if (n =? 92)%N then String backslash (String backslash "")
  else if (n =? 8)%N then String backslash "b"
  else if (n =? 12)%N then String backslash "f"
  else if (n =? 10)%N then String backslash "n"
  else if (n =? 13)%N then String backslash "r"
  else if (n =? 9)%N then String backslash "t"
  else if (n <? 32)%N then String backslash ("u00" ++ hex2 false c)
  else String c "".

Fixpoint quoteBody (s : string) : string :=
  match s with
  | "" => ""
  | String c r => quoteChar c ++ quoteBody r
  end.

Definition quote (s : string) : string :=
  String quot (quoteBody s ++ String quot "").

Definition member (k v : string) : string := quote k ++ ":" ++ quote v.

(** A property whose value is [undefined] is left out. *)
Definition optMember (k : string) (v : option string) : string :=
  match v with
  | Some s => "," ++ member k s
  | None => ""
  end.

Definition stringifyFile (f : AudioFile) : string :=
  "{" ++ member "id" (id f)
      ++ "," ++ member "filename" (filename f)
      ++ "," ++ member "uri" (uri f)
      ++ optMember "albumCover" (albumCover f)
      ++ optMember "artist" (artist f)
      ++ optMember "album" (album f)
      ++ "}".

Fixpoint joinComma (l : list string) : string :=
  match l with
  | [] => ""
  | [x] => x
  | x :: rest => x ++ "," ++ joinComma rest
  end.

Definition stringify (files : list AudioFile) : string :=
  "[" ++ joinComma (map stringifyFile files) ++ "]".

(** *** Parsing *)

Inductive Token :=
| TLBracket | TRBracket | TLBrace | TRBrace | TColon | TComma
| TString (s : string).

Definition unescape (e : ascii) : option ascii :=
  let n := N_of_ascii e in
  if (n =? 34)%N then Some quot
  else if (n =? 92)%N then Some backslash
  else if (n =? 47)%N then Some "/"%char
  else if (n =? 98)%N then Some (ascii_of_N 8)
  else if (n =? 102)%N then Some (ascii_of_N 12)
  else if (n =? 110)%N then Some (ascii_of_N 10)
  else if (n =? 114)%N then Some (ascii_of_N 13)
  else if (n =? 116)%N then Some (ascii_of_N 9)
  else None.

Definition hex4 (a b c d : ascii) : option N :=
  match hexValue a, hexValue b, hexValue c, hexValue d with
  | Some x, Some y, Some z, Some w => Some (((x * 16 + y) * 16 + z) * 16 + w)%N
  | _, _, _, _ => None
  end.

Definition isSpace (c : ascii) : bool :=
  let n := N_of_ascii c in
  (n =? 32)%N || (n =? 9)%N || (n =? 10)%N || (n =? 13)%N.

Definition push (acc : string) (c : ascii) : string := acc ++ String c "".

(** The lexer.  [lit = Some acc] inside a string literal whose decoded
    characters so far are [acc]. *)
Fixpoint lex (lit : option string) (s : string) : option (list Token) :=
  match s with
  | "" => match lit with None => Some [] | Some _ => None end
  | String c r =>
      match lit with
      | Some acc =>
          if Ascii.eqb c quot then cons (TString acc) <$> lex None r
          else if Ascii.eqb c backslash then
            match r with
            | String e r' =>
                match unescape e with
                | Some d => lex (Some (push acc d)) r'
                | None =>
                    if Ascii.eqb e "u" then
                      match r' with
                      | String h1 (String h2 (String h3 (String h4 r''))) =>
                          match hex4 h1 h2 h3 h4 with
                          | Some n =>
                              if (n <? 128)%N
                              then lex (Some (push acc (ascii_of_N n))) r''
                              else None
                          | None => None
                          end
                      | _ => None
                      end
                    else None
                end
            | "" => None
            end
          else if (N_of_ascii c <? 32)%N then None
          else lex (Some (push acc c)) r
      | None =>
          if Ascii.eqb c quot then lex (Some "") r
          else if Ascii.eqb c "[" then cons TLBracket <$> lex None r
          else if Ascii.eqb c "]" then cons TRBracket <$> lex None r
          else if Ascii.eqb c "{" then cons TLBrace <$> lex None r
          else if Ascii.eqb c "}" then cons TRBrace <$> lex None r
          else if Ascii.eqb c ":" then cons TColon <$> lex None r
          else if Ascii.eqb c "," then cons TComma <$> lex None r
          else if isSpace c then lex None r
          else None
      end
  end.

(** The members of an object after its opening brace. *)
Fixpoint parseMembers (ts : list Token)
  : option (list (string * string) * list Token) :=
  match ts with
  | TString k :: TColon :: TString v :: TRBrace :: rest => Some ([(k, v)], rest)
  | TString k :: TColon :: TString v :: TComma :: rest =>
      match parseMembers rest with
      | Some (ms, rest') => Some ((k, v) :: ms, rest')
      | None => None
      end
  | _ => None
  end.

Definition parseObject (ts : list Token)
  : option (list (string * string) * list Token) :=
  match ts with
  | TLBrace :: TRBrace :: rest => Some ([], rest)
  | TLBrace :: rest => parseMembers rest
  | _ => None
  end.

(** The object read through the interface [AudioFile]: a later member
    overrides an earlier one of the same name, members of other names are
    not visible, the three mandatory fields must be there. *)
Definition setMember (p : option string * option string * option string
                          * option string * option string * option string)
    (kv : string * string) :=
  let '(i, f, u, c, a, b) := p in
  let '(k, v) := kv in
  if String.eqb k "id" then (Some v, f, u, c, a, b)
  else if String.eqb k "filename" then (i, Some v, u, c, a, b)
  else if String.eqb k "uri" then (i, f, Some v, c, a, b)
  else if String.eqb k "albumCover" then (i, f, u, Some v, a, b)
  else if String.eqb k "artist" then (i, f, u, c, Some v, b)
  else if String.eqb k "album" then (i, f, u, c, a, Some v)
  else p.

Definition toAudioFile (ms : list (string * string)) : option AudioFile :=
  match fold_left setMember ms (None, None, None, None, None, None) with
  | (Some i, Some f, Some u, c, a, b) => Some (mkAudioFile i f u c a b)
  | _ => None
  end.

(** The elements of an array after its opening bracket, up to the end of
    the text.  Each element consumes at least one token, so the number of
    tokens is enough fuel. *)
Fixpoint parseElements (fuel : nat) (ts : list Token) : option (list AudioFile) :=
  match fuel with
  | O => None
  | S fuel' =>
      match parseObject ts with
      | Some (ms, [TRBracket]) =>
          match toAudioFile ms with
          | Some f => Some [f]
          | None => None
          end
      | Some (ms, TComma :: rest) =>
          match toAudioFile ms, parseElements fuel' rest with
          | Some f, Some fs => Some (f :: fs)
          | _, _ => None
          end
      | _ => None
      end
  end.

Definition parseArray (ts : list Token) : option (list AudioFile) :=
  match ts with
  | [TLBracket; TRBracket] => Some []
  | TLBracket :: rest => parseElements (length rest) rest
  | _ => None
  end.

(** [JSON.parse]; [None] is the [SyntaxError]. *)
Definition parse (text : string) : option (list AudioFile) :=
  match lex None text with
  | Some ts => parseArray ts
  | None => None
  end.

End JSON.

(* ================================================================== *)
(** ** [btoa]

    Base64 of the code units, each of which is below 256; the client id
    and secret are ASCII, so code units and UTF-8 bytes coincide.  (On
    other text the function of the platform encodes the code units up to
    255 and throws on a larger one; the statements about the encoded
    credentials are made for ASCII text, [asciiCredentials].) *)

Definition base64Char (n : N) : ascii :=
  if (n <? 26)%N then ascii_of_N (65 + n)
  else if (n <? 52)%N then ascii_of_N (71 + n)
  else if (n <? 62)%N then ascii_of_N (n - 4)
  else if (n =? 62)%N then "+"%char
  else "/"%char.

Fixpoint btoa (s : string) : string :=
  match s with
  | "" => ""
  | String a "" =>
      let x := N_of_ascii a in
      String (base64Char (x / 4)) (String (base64Char (x mod 4 * 16)) "==")
  | String a (String b "") =>
      let x := N_of_ascii a in
      let y := N_of_ascii b in
      String (base64Char (x / 4))
        (String (base64Char (x mod 4 * 16 + y / 16))
           (String (base64Char (y mod 16 * 4)) "="))
  | String a (String b (String c r)) =>
      let x := N_of_ascii a in
      let y := N_of_ascii b in
      let z := N_of_ascii c in
      String (base64Char (x / 4))
        (String (base64Char (x mod 4 * 16 + y / 16))
           (String (base64Char (y mod 16 * 4 + z / 64))
              (String (base64Char (z mod 64)) (btoa r))))
  end.

(* ================================================================== *)
(** ** The platform and the provider state *)

(** A promise that has settled. *)
Inductive Settled (A : Type) :=
| Fulfilled (a : A)
| Rejected (e : Exn).
Arguments Fulfilled {A} a.
Arguments Rejected {A} e.

(** What the provider does to the outside, in the order it does it. *)
Inductive Event :=
| HttpPost (url body authorization : string)
| HttpGet (url authorization : string)
| PermissionRequest
| AssetScan
| ConsoleLog (message : string)
| ConsoleError (message : string).

Record Env := mkEnv {
  (** [process.env.EXPO_PUBLIC_SPOTIFY_CLIENT_ID] and [..._SECRET] *)
  spotifyClientId : option string;
  spotifyClientSecret : option string;
  (** [axios.post url body {headers}]: the [data] of the response, or a
      rejection (transport error, status outside 2xx) *)
  axiosPost : string -> string -> string -> Settled JsVal;
  (** [axios.get url {headers}] of the lookup at the given position of the
      batch *)
  axiosGet : nat -> string -> string -> Settled JsVal;
  (** the positions of the lookups in the order in which their responses
      settle; a position that does not occur never settles *)
  settleOrder : list nat;
  (** [navigator.onLine]; [initialize] reads it twice without an [await]
      in between, so both reads see one value *)
  onLine : bool;
  (** [MediaLibrary.requestPermissionsAsync()]: the [status] *)
  requestPermissionsAsync : Settled string;
  (** [MediaLibrary.getAssetsAsync({mediaType: audio})]: the [assets] *)
  getAssetsAsync : Settled (list Asset);
  (** faults of the key-value store *)
  getItemFails : bool;
  setItemFails : bool
}.

(** The [useState] cells of the provider, the contents of [AsyncStorage]
    and the events so far (oldest first). *)
Record World := mkWorld {
  audioFiles : list AudioFile;
  loading : bool;
  accessToken : option string;
  asyncStorage : gmap string string;
  trace : list Event
}.

(** The provider when it mounts: the initial values of the three
    [useState] calls. *)
Definition mount (stored : gmap string string) : World :=
  mkWorld [] true None stored [].

(** The value handed to [AudioContext.Provider]. *)
Definition providerValue (w : World) : AudioContextType :=
  mkAudioContext (audioFiles w) (loading w).

(* ================================================================== *)
(** ** Asynchronous computations *)

Inductive Res (A : Type) :=
| Ok (a : A)
| Throw (e : Exn)
| Pending.
Arguments Ok {A} a.
Arguments Throw {A} e.
Arguments Pending {A}.

Definition M (A : Type) : Type := World -> Res A * World.

Definition ret {A} (a : A) : M A := fun w => (Ok a, w).

Definition bind {A B} (m : M A) (k : A -> M B) : M B :=
  fun w =>
    match m w with
    | (Ok a, w') => k a w'
    | (Throw e, w') => (Throw e, w')
    | (Pending, w') => (Pending, w')
    end.

Definition throw {A} (e : Exn) : M A := fun w => (Throw e, w).

Definition pending {A} : M A := fun w => (Pending, w).

Declare Scope async_scope.
Delimit Scope async_scope with async.
Notation "x <- m ;; k" := (bind m (fun x => k))
  (at level 100, m at next level, k at level 200, right associativity)
  : async_scope.
Notation "m ;; k" := (bind m (fun _ => k))
  (at level 100, k at level 200, right associativity) : async_scope.
Open Scope async_scope.

(** [try { body } catch (error) { handler }] *)
Definition tryCatch {A} (body : M A) (handler : Exn -> M A) : M A :=
  fun w =>
    match body w with
    | (Throw e, w') => handler e w'
    | r => r
    end.

(** [try { body } finally { final }]: the block runs after a value and
    after an exception, not while the body is still waiting. *)
Definition tryFinally {A} (body : M A) (final : M unit) : M A :=
  fun w =>
    match body w with
    | (Pending, w') => (Pending, w')
    | (r, w') =>
        match final w' with
        | (Ok _, w'') => (r, w'')
        | (Throw e, w'') => (Throw e, w'')
        | (Pending, w'') => (Pending, w'')
        end
    end.

Definition await {A} (p : Settled A) : M A :=
  match p with
  | Fulfilled a => ret a
  | Rejected e => throw e
  end.

(** An expression that may raise. *)
Definition eval {A} (x : Exn + A) : M A :=
  match x with
  | inr a => ret a
  | inl e => throw e
  end.

Definition emit (ev : Event) : M unit :=
  fun w => (Ok tt, mkWorld (audioFiles w) (loading w) (accessToken w)
                           (asyncStorage w) (trace w ++ [ev])).

Definition setAudioFiles (files : list AudioFile) : M unit :=
  fun w => (Ok tt, mkWorld files (loading w) (accessToken w)
                           (asyncStorage w) (trace w)).

Definition setLoading (b : bool) : M unit :=
  fun w => (Ok tt, mkWorld (audioFiles w) b (accessToken w)
                           (asyncStorage w) (trace w)).

Definition setAccessToken (t : option string) : M unit :=
  fun w => (Ok tt, mkWorld (audioFiles w) (loading w) t
                           (asyncStorage w) (trace w)).

Fixpoint forEach {A} (f : A -> M unit) (l : list A) : M unit :=
  match l with
  | [] => ret tt
  | x :: rest => f x ;; forEach f rest
  end.

(** Expressions on [any] compose in the exception monad of the
    language. *)
Definition andThen {A B} (x : Exn + A) (k : A -> Exn + B) : Exn + B :=
  match x with
  | inr a => k a
  | inl e => inl e
  end.

Notation "x <~ m ;; k" := (andThen m (fun x => k))
  (at level 100, m at next level, k at level 200, right associativity)
  : async_scope.

(** [Promise.all] over promises whose continuations are [conts]: the
    continuations run in the order [order] in which they settle, each
    writes the slot of its own position, the first rejection rejects the
    whole, and the result is there once every slot is written. *)
Fixpoint settle {A} (conts : list (M A)) (order : list nat)
    (slots : list (option A)) : M (list (option A)) :=
  match order with
  | [] => ret slots
  | i :: later =>
      match conts !! i, slots !! i with
      | Some k, Some None =>
          r <- k ;; settle conts later (<[i := Some r]> slots)
      | _, _ => settle conts later slots
      end
  end.

Fixpoint allWritten {A} (slots : list (option A)) : option (list A) :=
  match slots with
  | [] => Some []
  | Some r :: rest =>
      match allWritten rest with
      | Some rs => Some (r :: rs)
      | None => None
      end
  | None :: _ => None
  end.

Definition promiseAll {A} (order : list nat) (conts : list (M A)) : M (list A) :=
  slots <- settle conts order (replicate (length conts) None) ;;
  match allWritten slots with
  | Some results => ret results
  | None => pending
  end.

(* ================================================================== *)
(** ** [useAudio] *)

(** [useContext]: the value of the nearest enclosing provider, or the
    default of the context. *)
Definition useContext {T} (defaultValue : option T) (providers : list T)
  : option T :=
  match providers with
  | value :: _ => Some value
  | [] => defaultValue
  end.

(** [createContext<AudioContextType | undefined>(undefined)] *)
Definition AudioContext : option AudioContextType := None.

(** A context value is an object, hence truthy: [!context] holds for
    [undefined] alone. *)
Definition useAudio (providers : list AudioContextType)
  : Exn + AudioContextType :=
  match useContext AudioContext providers with
  | None => inl (Error "useAudio must be used within an AudioProvider")
  | Some context => inr context
  end.

(* ================================================================== *)
(** ** The provider *)

Module AsyncStorage.

Definition getItem (fails : bool) (key : string) : M (option string) :=
  fun w => if fails then (Throw StorageError, w)
           else (Ok (asyncStorage w !! key), w).

Definition setItem (fails : bool) (key value : string) : M unit :=
  fun w => if fails then (Throw StorageError, w)
           else (Ok tt, mkWorld (audioFiles w) (loading w) (accessToken w)
                                (<[key := value]> (asyncStorage w)) (trace w)).

End AsyncStorage.

(** What [loadAudioDataFromStorage] returns: [null] without an entry,
    [undefined] after a caught error, the parsed array otherwise. *)
Inductive Cached :=
| CachedNull
| CachedUndefined
| CachedFiles (files : list AudioFile).

(** [cachedData && ...]: an array is truthy, also when empty. *)
Definition truthyCached (c : Cached) : bool :=
  match c with CachedFiles _ => true | _ => false end.

(** [token && ...]: the empty string is falsy. *)
Definition truthyToken (t : option string) : bool :=
  match t with
  | Some s => negb (String.eqb s "")
  | None => false
  end.

(** [file.filename.split('.')[0]], followed by the conversion to a string
    that [encodeURIComponent] applies to its argument. *)
Definition searchQuery (file : AudioFile) : string :=
  encodeURIComponent (interpolate (split "." (filename file) !! 0%nat)).

Definition searchUrl (file : AudioFile) : string :=
  "https://api.spotify.com/v1/search?q=" ++ searchQuery file
    ++ "&type=track&limit=1".

(** [response.data.tracks.items[0]] *)
Definition firstMatch (data : JsVal) : Exn + JsVal :=
  tracks <~ getProp data "tracks" ;;
  items <~ getProp tracks "items" ;;
  getFirst items.

(** [{ ...file, albumCover: track.album.images[0]?.url,
       artist: track.artists[0]?.name, album: track.album.name }] *)
Definition merge (file : AudioFile) (track : JsVal) : Exn + AudioFile :=
  album1 <~ getProp track "album" ;;
  images <~ getProp album1 "images" ;;
  image <~ getFirst images ;;
  url <~ getPropOpt image "url" ;;
  artists <~ getProp track "artists" ;;
  artist0 <~ getFirst artists ;;
  name <~ getPropOpt artist0 "name" ;;
  album2 <~ getProp track "album" ;;
  albumName <~ getProp album2 "name" ;;
  inr (mkAudioFile (id file) (filename file) (uri file)
         (asOptString url) (asOptString name) (asOptString albumName)).

(** The statements of the [try] block after the response has arrived. *)
Definition enrich (file : AudioFile) (data : JsVal) : Exn + AudioFile :=
  track <~ firstMatch data ;;
  if truthy track then merge file track else inr file.

Section Provider.

Variable env : Env.

Definition getClientCredentials : string :=
  btoa (interpolate (spotifyClientId env) ++ ":"
          ++ interpolate (spotifyClientSecret env)).

(** Fetch Spotify Access Token *)
Definition fetchSpotifyToken : M (option string) :=
  tryCatch
    (let authorization := "Basic " ++ getClientCredentials in
     emit (HttpPost "https://accounts.spotify.com/api/token"
             "grant_type=client_credentials" authorization) ;;
     data <- await (axiosPost env "https://accounts.spotify.com/api/token"
                      "grant_type=client_credentials" authorization) ;;
     access_token <- eval (getProp data "access_token") ;;
     setAccessToken (asOptString access_token) ;;
     ret (asOptString access_token))
    (fun error =>
       emit (ConsoleError "Error fetching Spotify token:") ;;
       ret None).

(** The callback of [audioFiles.map] up to its [await]: the request
    leaves. *)
Definition request (token : string) (file : AudioFile) : M unit :=
  emit (HttpGet (searchUrl file) ("Bearer " ++ token)).

(** The callback from its [await] on, for the file at position [i]. *)
Definition lookup (token : string) (i : nat) (file : AudioFile) : M AudioFile :=
  tryCatch
    (data <- await (axiosGet env i (searchUrl file) ("Bearer " ++ token)) ;;
     eval (enrich file data))
    (fun error =>
       emit (ConsoleError "Error fetching data from Spotify:") ;;
       ret file).

(** Enhance Audio with Spotify Data *)
Definition enhanceAudioWithSpotifyData (files : list AudioFile) (token : string)
  : M (list AudioFile) :=
  forEach (request token) files ;;
  promiseAll (settleOrder env) (imap (lookup token) files).

(** Store Enhanced Audio Data Locally *)
Definition storeAudioData (enhancedFiles : list AudioFile) : M unit :=
  tryCatch
    (let jsonData := JSON.stringify enhancedFiles in
     AsyncStorage.setItem (setItemFails env) "audioFiles" jsonData)
    (fun error => emit (ConsoleError "Error saving audio data:")).

(** Load Audio Data from Local Storage *)
Definition loadAudioDataFromStorage : M Cached :=
  tryCatch
    (jsonData <- AsyncStorage.getItem (getItemFails env) "audioFiles" ;;
     match jsonData with
     | Some text =>
         match JSON.parse text with
         | Some files => ret (CachedFiles files)
         | None => throw SyntaxError
         end
     | None => ret CachedNull
     end)
    (fun error =>
       emit (ConsoleError "Error loading audio data from storage:") ;;
       ret CachedUndefined).

Definition toFile (asset : Asset) : AudioFile :=
  mkAudioFile (assetId asset) (assetFilename asset) (assetUri asset)
    None None None.

(** Fetch Audio Files from Device *)
Definition fetchAudioFiles (token : string) : M unit :=
  setLoading true ;;
  tryFinally
    (tryCatch
       (emit PermissionRequest ;;
        status <- await (requestPermissionsAsync env) ;;
        if String.eqb status "granted" then
          emit AssetScan ;;
          assets <- await (getAssetsAsync env) ;;
          let files := map toFile assets in
          enhancedFiles <- enhanceAudioWithSpotifyData files token ;;
          setAudioFiles enhancedFiles ;;
          storeAudioData enhancedFiles
        else
          emit (ConsoleLog "Permission to access media library was denied."))
       (fun error => emit (ConsoleError "Error fetching audio files:")))
    (setLoading false).

(** The effect that runs once when the provider mounts. *)
Definition initialize : M unit :=
  token <- fetchSpotifyToken ;;
  cachedData <- loadAudioDataFromStorage ;;
  match cachedData, negb (onLine env) with
  | CachedFiles files, true =>
      (* if (cachedData && !navigator.onLine) *)
      emit (ConsoleLog "Loaded from cache:") ;;
      setAudioFiles files ;;
      setLoading false
  | _, _ =>
      (* if (token && navigator.onLine) *)
      match token with
      | Some t =>
          if truthyToken token && onLine env then fetchAudioFiles t
          else ret tt
      | None => ret tt
      end
  end.

End Provider.

(* ================================================================== *)
(** ** Vocabulary of the statements *)

(** The world after some more events. *)
Definition logged (w : World) (events : list Event) : World :=
  mkWorld (audioFiles w) (loading w) (accessToken w) (asyncStorage w)
          (trace w ++ events).

Definition isNetworkCall (ev : Event) : bool :=
  match ev with
  | HttpPost _ _ _ | HttpGet _ _ => true
  | _ => false
  end.

Definition isCatalogCall (ev : Event) : bool :=
  match ev with
  | HttpGet _ _ => true
  | _ => false
  end.

Definition isMediaCall (ev : Event) : bool :=
  match ev with
  | PermissionRequest | AssetScan => true
  | _ => false
  end.

Definition isConsole (ev : Event) : bool :=
  match ev with
  | ConsoleLog _ | ConsoleError _ => true
  | _ => false
  end.

Definition networkCalls (events : list Event) : list Event :=
  List.filter isNetworkCall events.

Definition mediaCalls (events : list Event) : list Event :=
  List.filter isMediaCall events.

Definition catalogCalls (events : list Event) : list Event :=
  List.filter isCatalogCall events.

Definition tokenUrl : string := "https://accounts.spotify.com/api/token".

(** The one request of [fetchSpotifyToken]. *)
Definition tokenRequest (env : Env) : Event :=
  HttpPost tokenUrl "grant_type=client_credentials"
           ("Basic " ++ getClientCredentials env).

(** What [fetchAudioFiles] prints without the permission. *)
Definition deniedNotice : Event :=
  ConsoleLog "Permission to access media library was denied.".

(** What the [catch] of a lookup prints. *)
Definition lookupError : Event :=
  ConsoleError "Error fetching data from Spotify:".


(** The token the platform hands out, if any. *)
Definition obtainedToken (env : Env) : option string :=
  match axiosPost env tokenUrl "grant_type=client_credentials"
                  ("Basic " ++ getClientCredentials env) with
  | Fulfilled data =>
      match getProp data "access_token" with
      | inr v => asOptString v
      | inl _ => None
      end
  | Rejected _ => None
  end.

(** What the stored entry reads as. *)
Definition cachedOf (env : Env) (store : gmap string string) : Cached :=
  if getItemFails env then CachedUndefined
  else match store !! "audioFiles" with
       | None => CachedNull
       | Some text =>
           match JSON.parse text with
           | Some files => CachedFiles files
           | None => CachedUndefined
           end
       end.

(** A computation that has not thrown: it returned or is still
    waiting. *)
Definition notThrown {A} (r : Res A) : Prop :=
  match r with
  | Throw _ => False
  | _ => True
  end.

(** The track a lookup ends with, given the answer of the catalog: the
    enriched track after a match, the track itself after no match, a
    malformed answer or a rejection. *)
Definition settled (file : AudioFile) (answer : Settled JsVal) : AudioFile :=
  match answer with
  | Fulfilled data =>
      match enrich file data with
      | inr enriched => enriched
      | inl _ => file
      end
  | Rejected _ => file
  end.

(** The same on a platform, for the file at position [i] of the batch:
    it depends on the answer to the request of that position alone. *)
Definition outcome (env : Env) (token : string) (i : nat) (file : AudioFile)
  : AudioFile :=
  settled file (axiosGet env i (searchUrl file) ("Bearer " ++ token)).

(** The slots of the batch while it settles: every written slot holds
    the outcome of the lookup at its position. *)
Definition slotsOk (env : Env) (token : string) (files : list AudioFile)
    (slots : list (option AudioFile)) : Prop :=
  length slots = length files
  /\ forall j r, slots !! j = Some (Some r) ->
                 exists f, files !! j = Some f /\ r = outcome env token j f.

(** [v.k1.k2...] *)
Fixpoint path (v : JsVal) (ks : list string) : Exn + JsVal :=
  match ks with
  | [] => inr v
  | k :: rest => x <~ getProp v k ;; path x rest
  end.

(** A value that is not there: reading it raises, or gives [undefined] or
    [null]. *)
Definition missing (x : Exn + JsVal) : bool :=
  match x with
  | inl _ => true
  | inr v => nullish v
  end.

(** An expression that raises. *)
Definition raises {A} (x : Exn + A) : bool :=
  match x with
  | inl _ => true
  | inr _ => false
  end.

Fixpoint hasDot (s : string) : bool :=
  match s with
  | "" => false
  | String c r => Ascii.eqb c "." || hasDot r
  end.

(** The name up to its first dot. *)
Fixpoint beforeFirstDot (s : string) : string :=
  match s with
  | "" => ""
  | String c r => if Ascii.eqb c "." then "" else String c (beforeFirstDot r)
  end.

(** In the words of the specification: the file name with its extension
    stripped, that is, up to its last dot. *)
Fixpoint stripExtension (s : string) : string :=
  match s with
  | "" => ""
  | String c r =>
      if Ascii.eqb c "." && negb (hasDot r) then ""
      else String c (stripExtension r)
  end.

(* ================================================================== *)
(** ** Sample platforms *)

Definition catalogHit : JsVal :=
  JObj [("tracks", JObj [("items", JArr [JObj
    [("album", JObj [("images", JArr [JObj [("url", JStr "https://i.scdn.co/image/1")]]);
                     ("name", JStr "Album")]);
     ("artists", JArr [JObj [("name", JStr "Artist")]])]])])].

Definition catalogMiss : JsVal :=
  JObj [("tracks", JObj [("items", JArr [])])].



Definition tokenGranted : Settled JsVal :=
  Fulfilled (JObj [("access_token", JStr "BQDtoken")]).

(** A 401 from the token endpoint, or no network: axios rejects. *)
Definition tokenRefused : Settled JsVal := Rejected AxiosError.

Definition sampleAssets : list Asset :=
  [mkAsset "1" "song.mp3" "file:///music/song.mp3";
   mkAsset "2" "my.song.mp3" "file:///music/my.song.mp3";
   mkAsset "3" "other.mp3" "file:///music/other.mp3"].

(** The catalog knows the first asset, does not know the second and
    answers the third with an error; the third answer arrives first. *)
Definition samplePlatform (token : Settled JsVal) (online : bool)
    (status : string) : Env :=
  mkEnv (Some "client") (Some "secret")
    (fun _ _ _ => token)
    (fun i _ _ => match i with
                  | O => Fulfilled catalogHit
                  | S O => Fulfilled catalogMiss
                  | _ => Rejected AxiosError
                  end)
    [2; 0; 1]%nat online (Fulfilled status) (Fulfilled sampleAssets)
    false false.

(** A platform whose catalog gives one answer to every lookup. *)
Definition uniformPlatform (answer : Settled JsVal) : Env :=
  mkEnv (Some "client") (Some "secret")
    (fun _ _ _ => tokenGranted) (fun _ _ _ => answer)
    [0; 1; 2]%nat true (Fulfilled "granted") (Fulfilled sampleAssets)
    false false.

Definition sampleFile : AudioFile :=
  mkAudioFile "2" "my.song.mp3" "file:///music/my.song.mp3" None None None.

Definition snapshot3 : list AudioFile :=
  [mkAudioFile "1" "song.mp3" "file:///music/song.mp3"
     (Some "https://i.scdn.co/image/1") (Some "Artist") (Some "Album");
   sampleFile;
   mkAudioFile "3" "other.mp3" "file:///music/other.mp3" None None None].

Definition storedSnapshot : gmap string string :=
  {[ "audioFiles" := JSON.stringify snapshot3 ]}.

(** ** Token streams of the JSON text (used in the round-trip proof) *)

Definition membersOf (f : AudioFile) : list (string * string) :=
  [("id", id f); ("filename", filename f); ("uri", uri f)]
    ++ match albumCover f with Some s => [("albumCover", s)] | None => [] end
    ++ match artist f with Some s => [("artist", s)] | None => [] end
    ++ match album f with Some s => [("album", s)] | None => [] end.

Definition memberTokens (kv : string * string) : list JSON.Token :=
  [JSON.TString (fst kv); JSON.TColon; JSON.TString (snd kv)].

Definition optTokens (k : string) (v : option string) : list JSON.Token :=
  match v with
  | Some s => JSON.TComma :: memberTokens (k, s)
  | None => []
  end.

Definition fileTokens (f : AudioFile) : list JSON.Token :=
  JSON.TLBrace :: memberTokens ("id", id f)
    ++ JSON.TComma :: memberTokens ("filename", filename f)
    ++ JSON.TComma :: memberTokens ("uri", uri f)
    ++ optTokens "albumCover" (albumCover f)
    ++ optTokens "artist" (artist f)
    ++ optTokens "album" (album f)
    ++ [JSON.TRBrace].

Fixpoint elementTokens (files : list AudioFile) : list JSON.Token :=
  match files with
  | [] => []
  | [f] => fileTokens f
  | f :: rest => fileTokens f ++ JSON.TComma :: elementTokens rest
  end.

(* ================================================================== *)
(** ** Vocabulary of the further properties *)

(** What the [catch] blocks of the other functions print. *)
Definition tokenError : Event := ConsoleError "Error fetching Spotify token:".
Definition storeError : Event := ConsoleError "Error saving audio data:".
Definition loadError : Event :=
  ConsoleError "Error loading audio data from storage:".
Definition fetchError : Event := ConsoleError "Error fetching audio files:".

(** The request of one lookup. *)
Definition searchRequest (token : string) (file : AudioFile) : Event :=
  HttpGet (searchUrl file) ("Bearer " ++ token).

Fixpoint allChars (p : ascii -> bool) (s : string) : bool :=
  match s with
  | "" => true
  | String c r => p c && allChars p r
  end.



(** The alphabet of base64 with its padding sign. *)
Definition base64Alphabet (c : ascii) : bool :=
  let n := N_of_ascii c in
  ((65 <=? n)%N && (n <=? 90)%N) || ((97 <=? n)%N && (n <=? 122)%N)
  || ((48 <=? n)%N && (n <=? 57)%N)
  || Ascii.eqb c "+" || Ascii.eqb c "/" || Ascii.eqb c "=".

(* ================================================================== *)
(** ** Vocabulary of the untyped values

    The answers of the two endpoints are of type [any]: what the
    provider copies out of them is whatever the endpoint sent.  The
    statements below speak of these values as they arrive. *)

(** [response.data.access_token], as [fetchSpotifyToken] reads it out of
    the answer to its request; [undefined] stands for the result of the
    function after a rejection or a failed read. *)
Definition tokenOf (answer : Settled JsVal) : JsVal :=
  match answer with
  | Fulfilled data =>
      match getProp data "access_token" with
      | inr v => v
      | inl _ => JUndefined
      end
  | Rejected _ => JUndefined
  end.

(** The value that [initialize] tests in [token && navigator.onLine]. *)
Definition rawToken (env : Env) : JsVal :=
  tokenOf (axiosPost env tokenUrl "grant_type=client_credentials"
             ("Basic " ++ getClientCredentials env)).

(** A request to the token endpoint, whatever its credentials. *)
Definition isTokenPost (ev : Event) : bool :=
  match ev with
  | HttpPost url body _ =>
      String.eqb url tokenUrl && String.eqb body "grant_type=client_credentials"
  | _ => false
  end.

Definition isAscii (c : ascii) : bool := (N_of_ascii c <? 128)%N.

(** [`${id}:${secret}`], the argument of [btoa]. *)
Definition credentials (env : Env) : string :=
  interpolate (spotifyClientId env) ++ ":"
    ++ interpolate (spotifyClientSecret env).

(** On ASCII text [btoa] is the base64 of the text; on other text it
    encodes the code units below 256 and throws on any other. *)
Definition asciiCredentials (env : Env) : bool :=
  allChars isAscii (credentials env).

(** [track.album.images[0]?.url] *)
Definition coverOf (track : JsVal) : Exn + JsVal :=
  album <~ getProp track "album" ;;
  images <~ getProp album "images" ;;
  image <~ getFirst images ;;
  getPropOpt image "url".

(** [track.artists[0]?.name] *)
Definition artistOf (track : JsVal) : Exn + JsVal :=
  artists <~ getProp track "artists" ;;
  artist0 <~ getFirst artists ;;
  getPropOpt artist0 "name".

(** [track.album.name] *)
Definition albumOf (track : JsVal) : Exn + JsVal :=
  album <~ getProp track "album" ;;
  getProp album "name".

(** The optional field of a track to which the value [raw] was
    assigned: it holds the string when [raw] is a string, and is unset
    when [raw] is [undefined].  The interface [AudioFile] has no other
    value for such a field; of a value of another type ([null], a number,
    an object) nothing is said. *)
Definition copied (raw : JsVal) (field : option string) : Prop :=
  match raw with
  | JStr s => field = Some s
  | JUndefined => field = None
  | _ => True
  end.

(** A value that fits a field of type [string | undefined]; a read that
    raises assigns nothing. *)
Definition stringOrUnset (x : Exn + JsVal) : bool :=
  match x with
  | inr (JStr _) | inr JUndefined => true
  | inr _ => false
  | inl _ => true
  end.

(** An answer of the catalog whose first match, if there is one, has a
    cover, an artist and an album name that fit the interface
    [AudioFile]. *)
Definition typedAnswer (answer : Settled JsVal) : bool :=
  match answer with
  | Fulfilled data =>
      match firstMatch data with
      | inr track =>
          negb (truthy track)
          || (stringOrUnset (coverOf track) && stringOrUnset (artistOf track)
              && stringOrUnset (albumOf track))
      | inl _ => true
      end
  | Rejected _ => true
  end.

(** Every lookup of the batch gets such an answer. *)
Definition typedCatalog (env : Env) (token : string) (files : list AudioFile)
  : Prop :=
  forall i file,
    files !! i = Some file ->
    typedAnswer (axiosGet env i (searchUrl file) ("Bearer " ++ token)) = true.

(** The characters a JSON value can begin with: the bracket, the brace,
    the quote, the minus sign, a digit and the first letters of [true],
    [false] and [null]. *)
Definition jsonStart (c : ascii) : bool :=
  let n := N_of_ascii c in
  existsb (Ascii.eqb c) ["["; "{"; quot; "-"; "t"; "f"; "n"]%char
  || ((48 <=? n)%N && (n <=? 57)%N).

(** A text that cannot begin a JSON value: it is empty or blank, or its
    first character after the white space begins none. *)
Fixpoint cannotBeginJson (text : string) : bool :=
  match text with
  | "" => true
  | String c r =>
      if JSON.isSpace c then cannotBeginJson r else negb (jsonStart c)
  end.

(** A match with an album, a cover and an album name, and no [artists]. *)
Definition catalogAlbumOnly : JsVal :=
  JObj [("tracks", JObj [("items", JArr [JObj
    [("album", JObj [("images", JArr [JObj [("url", JStr "https://i.scdn.co/image/1")]]);
                     ("name", JStr "Album")])]])])].

(* ================================================================== *)
(** * Properties *)

(** ** Strings *)

Lemma append_cons (c : ascii) (s t : string) : String c s ++ t = String c (s ++ t).
Proof. reflexivity. Qed.

Lemma append_nil_l (s : string) : "" ++ s = s.
Proof. reflexivity. Qed.

Lemma append_nil_r (s : string) : s ++ "" = s.
Proof.
  induction s as [|c s IH]; [reflexivity|].
  now rewrite append_cons, IH.
Qed.

Lemma append_assoc (a b c : string) : (a ++ b) ++ c = a ++ (b ++ c).
Proof.
  induction a as [|x a IH]; [reflexivity|].
  now rewrite !append_cons, IH.
Qed.

(** ** The JSON round trip *)

Lemma lex_quoteChar (c : ascii) (acc rest : string) :
  JSON.lex (Some acc) (JSON.quoteChar c ++ rest)
  = JSON.lex (Some (JSON.push acc c)) rest.
Proof.
  destruct c as [[] [] [] [] [] [] [] []]; reflexivity.
Qed.

Lemma lex_close (acc rest : string) :
  JSON.lex (Some acc) (String quot rest)
  = cons (JSON.TString acc) <$> JSON.lex None rest.
Proof. reflexivity. Qed.

Lemma lex_open (rest : string) :
  JSON.lex None (String quot rest) = JSON.lex (Some "") rest.
Proof. reflexivity. Qed.

Lemma lex_quoteBody (s acc rest : string) :
  JSON.lex (Some acc) (JSON.quoteBody s ++ String quot rest)
  = cons (JSON.TString (acc ++ s)) <$> JSON.lex None rest.
Proof.
  revert acc. induction s as [|c s IH]; intros acc.
  - change (JSON.quoteBody "") with "".
    now rewrite append_nil_l, lex_close, append_nil_r.
  - change (JSON.quoteBody (String c s)) with (JSON.quoteChar c ++ JSON.quoteBody s).
    rewrite append_assoc, lex_quoteChar, IH.
    unfold JSON.push. now rewrite append_assoc.
Qed.

Lemma lex_quote (s rest : string) :
  JSON.lex None (JSON.quote s ++ rest)
  = cons (JSON.TString s) <$> JSON.lex None rest.
Proof.
  unfold JSON.quote.
  rewrite append_cons, lex_open, append_assoc, append_cons, append_nil_l.
  now rewrite lex_quoteBody.
Qed.

Lemma lex_colon (rest : string) :
  JSON.lex None (":" ++ rest) = cons JSON.TColon <$> JSON.lex None rest.
Proof. reflexivity. Qed.

Lemma lex_comma (rest : string) :
  JSON.lex None ("," ++ rest) = cons JSON.TComma <$> JSON.lex None rest.
Proof. reflexivity. Qed.

Lemma lex_lbrace (rest : string) :
  JSON.lex None ("{" ++ rest) = cons JSON.TLBrace <$> JSON.lex None rest.
Proof. reflexivity. Qed.

Lemma lex_rbrace (rest : string) :
  JSON.lex None ("}" ++ rest) = cons JSON.TRBrace <$> JSON.lex None rest.
Proof. reflexivity. Qed.

Lemma lex_member (k v rest : string) :
  JSON.lex None (JSON.member k v ++ rest)
  = app (memberTokens (k, v)) <$> JSON.lex None rest.
Proof.
  unfold JSON.member.
  rewrite !append_assoc, lex_quote, lex_colon, lex_quote.
  now destruct (JSON.lex None rest).
Qed.

Lemma lex_optMember (k : string) (v : option string) (rest : string) :
  JSON.lex None (JSON.optMember k v ++ rest)
  = app (optTokens k v) <$> JSON.lex None rest.
Proof.
  destruct v as [s|]; simpl JSON.optMember.
  - rewrite append_assoc, lex_comma, lex_member.
    now destruct (JSON.lex None rest).
  - rewrite append_nil_l. now destruct (JSON.lex None rest).
Qed.

Lemma lex_stringifyFile (f : AudioFile) (rest : string) :
  JSON.lex None (JSON.stringifyFile f ++ rest)
  = app (fileTokens f) <$> JSON.lex None rest.
Proof.
  unfold JSON.stringifyFile, fileTokens.
  rewrite !append_assoc, lex_lbrace, lex_member, lex_comma, lex_member,
    lex_comma, lex_member, !lex_optMember, lex_rbrace.
  destruct (JSON.lex None rest) as [ts|]; [|reflexivity].
  simpl. now rewrite <- !app_assoc.
Qed.

Lemma lex_elements (files : list AudioFile) (rest : string) :
  JSON.lex None (JSON.joinComma (map JSON.stringifyFile files) ++ rest)
  = app (elementTokens files) <$> JSON.lex None rest.
Proof.
  induction files as [|f [|g files] IH].
  - change (JSON.joinComma (map JSON.stringifyFile [])) with "".
    rewrite append_nil_l. now destruct (JSON.lex None rest).
  - apply lex_stringifyFile.
  - change (JSON.joinComma (map JSON.stringifyFile (f :: g :: files)))
      with (JSON.stringifyFile f ++ ","
              ++ JSON.joinComma (map JSON.stringifyFile (g :: files))).
    change (elementTokens (f :: g :: files))
      with (fileTokens f ++ JSON.TComma :: elementTokens (g :: files))%list.
    rewrite !append_assoc, lex_stringifyFile, lex_comma, IH.
    destruct (JSON.lex None rest) as [ts|]; [|reflexivity].
    simpl. now rewrite <- !app_assoc.
Qed.

Lemma lex_stringify (files : list AudioFile) :
  JSON.lex None (JSON.stringify files)
  = Some (JSON.TLBracket :: elementTokens files ++ [JSON.TRBracket]).
Proof.
  unfold JSON.stringify.
  change (JSON.lex None
            ("[" ++ JSON.joinComma (map JSON.stringifyFile files) ++ "]"))
    with (cons JSON.TLBracket
            <$> JSON.lex None (JSON.joinComma (map JSON.stringifyFile files) ++ "]")).
  now rewrite lex_elements.
Qed.

Lemma parseObject_fileTokens (f : AudioFile) (rest : list JSON.Token) :
  JSON.parseObject (fileTokens f ++ rest)%list = Some (membersOf f, rest).
Proof.
  destruct f as [i n u [c|] [a|] [b|]]; reflexivity.
Qed.

Lemma toAudioFile_membersOf (f : AudioFile) :
  JSON.toAudioFile (membersOf f) = Some f.
Proof.
  destruct f as [i n u [c|] [a|] [b|]]; reflexivity.
Qed.

Lemma fileTokens_cons (f : AudioFile) :
  exists ts, fileTokens f = JSON.TLBrace :: ts.
Proof. unfold fileTokens. eauto. Qed.

Lemma length_elementTokens (files : list AudioFile) :
  length files <= length (elementTokens files).
Proof.
  induction files as [|f [|g files] IH]; [simpl; lia| |].
  - change (elementTokens [f]) with (fileTokens f).
    destruct (fileTokens_cons f) as [ts ->]. simpl. lia.
  - change (elementTokens (f :: g :: files))
      with (fileTokens f ++ JSON.TComma :: elementTokens (g :: files))%list.
    rewrite length_app. simpl in *. lia.
Qed.

Lemma parseElements_elementTokens (files : list AudioFile) (f : AudioFile) (fuel : nat) :
  length files < fuel ->
  JSON.parseElements fuel (elementTokens (f :: files) ++ [JSON.TRBracket])%list
  = Some (f :: files).
Proof.
  revert f fuel. induction files as [|g files IH]; intros f fuel Hfuel.
  - destruct fuel as [|fuel]; [simpl in Hfuel; lia|].
    change (elementTokens [f]) with (fileTokens f).
    cbn [JSON.parseElements].
    now rewrite parseObject_fileTokens, toAudioFile_membersOf.
  - destruct fuel as [|fuel]; [simpl in Hfuel; lia|].
    change (elementTokens (f :: g :: files))
      with (fileTokens f ++ JSON.TComma :: elementTokens (g :: files))%list.
    rewrite <- app_assoc. cbn [JSON.parseElements].
    rewrite parseObject_fileTokens, toAudioFile_membersOf.
    rewrite <- app_comm_cons.
    rewrite (IH g fuel); [reflexivity | simpl in Hfuel; lia].
Qed.

Lemma parse_stringify (files : list AudioFile) :
  JSON.parse (JSON.stringify files) = Some files.
Proof.
  unfold JSON.parse. rewrite lex_stringify.
  destruct files as [|f files]; [reflexivity|].
  unfold JSON.parseArray.
  destruct (elementTokens (f :: files) ++ [JSON.TRBracket])%list as [|t ts] eqn:E.
  - now destruct (elementTokens (f :: files)).
  - assert (Hne : JSON.parseElements (length (t :: ts)) (t :: ts) = Some (f :: files)).
    { rewrite <- E. apply parseElements_elementTokens.
      rewrite length_app. pose proof (length_elementTokens (f :: files)).
      simpl in *. lia. }
    destruct t; try exact Hne.
    exfalso. revert E. destruct files as [|g files].
    + change (elementTokens [f]) with (fileTokens f).
      destruct (fileTokens_cons f) as [ts' ->]. discriminate.
    + change (elementTokens (f :: g :: files))
        with (fileTokens f ++ JSON.TComma :: elementTokens (g :: files))%list.
      destruct (fileTokens_cons f) as [ts' ->]. discriminate.
Qed.

(* ------------------------------------------------------------------ *)
(** ** [useAudio] *)

(** C9. Outside every [AudioProvider] [useAudio] throws an [Error] with
    the message 'useAudio must be used within an AudioProvider'; below a
    provider it returns the value of the nearest one and does not
    throw, whatever the state the provider exposes. *)
Theorem useAudio_provider :
  useAudio [] = inl (Error "useAudio must be used within an AudioProvider")
  /\ (forall (w : World) (outer : list AudioContextType),
        useAudio (providerValue w :: outer) = inr (providerValue w))
  /\ (forall (value : AudioContextType) (outer : list AudioContextType),
        useAudio (value :: outer) = inr value).
Proof. repeat split. Qed.

(* ------------------------------------------------------------------ *)
(** ** The search query *)

Lemma split_nonempty (sep : ascii) (s : string) : split sep s <> [].
Proof.
  induction s as [|c s IH]; simpl; [discriminate|].
  destruct (Ascii.eqb c sep); [discriminate|].
  now destruct (split sep s).
Qed.

(** The first piece of the split has no dot: it is the name up to its
    first dot. *)
Lemma split_first (s : string) :
  exists piece pieces,
    split "." s = piece :: pieces /\ hasDot piece = false
    /\ (hasDot s = false -> piece = s).
Proof.
  induction s as [|c s (piece & pieces & E & Hno & Hsame)]; simpl.
  - exists "", []. auto.
  - destruct (Ascii.eqb c ".") eqn:Ec; simpl.
    + exists "", (split "." s).
      split; [reflexivity|]. split; [reflexivity | discriminate].
    + rewrite E. exists (String c piece), pieces. simpl. rewrite Ec. simpl.
      split; [reflexivity|]. split; [exact Hno|].
      intros H. now rewrite Hsame.
Qed.

(** What the code asks the catalog for, on every track: the escaped file
    name up to its first dot. *)
Lemma searchQuery_first_dot (file : AudioFile) :
  searchQuery file = encodeURIComponent (beforeFirstDot (filename file)).
Proof.
  unfold searchQuery. f_equal. generalize (filename file) as s. clear file.
  induction s as [|c s IH]; [reflexivity|].
  simpl. destruct (Ascii.eqb c "."); [reflexivity|].
  destruct (split_first s) as (piece & pieces & E & _ & _).
  rewrite E in *. simpl in *. now rewrite IH.
Qed.

Lemma stripExtension_no_dot (s : string) : hasDot s = false -> stripExtension s = s.
Proof.
  induction s as [|c s IH]; simpl; [reflexivity|].
  destruct (Ascii.eqb c "."); simpl; [discriminate|].
  intros H. now rewrite IH.
Qed.

(** On a name with at most one dot the code and the specification
    agree: what is cut off is the extension. *)
Lemma searchQuery_one_dot (file : AudioFile) :
  hasDot (stripExtension (filename file)) = false ->
  searchQuery file = encodeURIComponent (stripExtension (filename file)).
Proof.
  unfold searchQuery. generalize (filename file) as s. clear file.
  induction s as [|c s IH]; [reflexivity|].
  simpl. destruct (Ascii.eqb c ".") eqn:Ec; simpl.
  - destruct (hasDot s) eqn:Hs; simpl; [|reflexivity].
    rewrite Ec. discriminate.
  - rewrite Ec. simpl. intros H. specialize (IH H).
    destruct (split_first s) as (piece & pieces & E & _ & _).
    rewrite E in *. simpl in *. now rewrite IH.
Qed.

(** The request of every track goes to the search endpoint with the
    query as [q] and asks for one match. *)
Lemma request_url (token : string) (file : AudioFile) (w : World) :
  request token file w
  = (Ok tt, logged w [HttpGet ("https://api.spotify.com/v1/search?q="
                                 ++ searchQuery file ++ "&type=track&limit=1")
                              ("Bearer " ++ token)]).
Proof. reflexivity. Qed.

(** C7. The query is the escaped file name up to its FIRST dot: for
    "my.song.mp3" the catalog is asked for "my", whereas the name with
    its extension stripped is "my.song". *)
Theorem searchQuery_multiple_dots :
  searchQuery sampleFile = "my"
  /\ encodeURIComponent (stripExtension (filename sampleFile)) = "my.song"
  /\ searchUrl sampleFile = "https://api.spotify.com/v1/search?q=my&type=track&limit=1".
Proof. repeat split. Qed.

(* ------------------------------------------------------------------ *)
(** ** Reading the catalog response *)

Lemma getProp_inl (v : JsVal) (k : string) (e : Exn) :
  getProp v k = inl e -> nullish v = true.
Proof. now destruct v. Qed.

Lemma getProp_nullish (v : JsVal) (k : string) :
  nullish v = true -> getProp v k = inl TypeError.
Proof. now destruct v. Qed.

Lemma getProp_defined (v : JsVal) (k : string) :
  nullish v = false -> exists x, getProp v k = inr x.
Proof. destruct v; simpl; try discriminate; eauto. Qed.

Lemma getFirst_nullish (v : JsVal) :
  nullish v = true -> getFirst v = inl TypeError.
Proof. now destruct v. Qed.

Lemma getFirst_defined (v : JsVal) :
  nullish v = false -> exists x, getFirst v = inr x.
Proof.
  destruct v as [| | | |s| |]; simpl; try discriminate; eauto.
  destruct s; eauto.
Qed.

(** The guarded access never raises. *)
Lemma getPropOpt_defined (v : JsVal) (k : string) :
  exists x, getPropOpt v k = inr x.
Proof.
  unfold getPropOpt. destruct (nullish v) eqn:E; [eauto|].
  now apply getProp_defined.
Qed.

Tactic Notation "read" constr(v) constr(k) "as" ident(x) :=
  let N := fresh "N" in
  let E := fresh "E" in
  destruct (nullish v) eqn:N;
  [ rewrite (getProp_nullish v k N) in *
  | destruct (getProp_defined v k N) as [x E]; rewrite E in * ];
  cbn [andThen path missing raises orb andb] in *.

Tactic Notation "first_of" constr(v) "as" ident(x) :=
  let N := fresh "N" in
  let E := fresh "E" in
  destruct (nullish v) eqn:N;
  [ rewrite (getFirst_nullish v N) in *
  | destruct (getFirst_defined v N) as [x E]; rewrite E in * ];
  cbn [andThen path missing raises orb andb] in *.

Tactic Notation "guarded" constr(v) constr(k) "as" ident(x) :=
  let E := fresh "E" in
  destruct (getPropOpt_defined v k) as [x E]; rewrite E in *;
  cbn [andThen path missing raises orb andb] in *.


(** The object literal raises exactly when the match has no
    [album.images] (in particular no [album]) or no [artists]. *)
Lemma merge_raises (file : AudioFile) (track : JsVal) :
  raises (merge file track)
  = missing (path track ["album"; "images"]) || missing (path track ["artists"]).
Proof.
  unfold merge. cbn [path].
  read track "album" as album; [reflexivity|].
  read album "images" as images; [reflexivity|].
  first_of images as image; [reflexivity|].
  guarded image "url" as url.
  read track "artists" as artists; [congruence|].
  first_of artists as artist0; [reflexivity|].
  guarded artist0 "name" as name.
  read album "name" as albumName; congruence.
Qed.


(** What is not a match leaves the track alone. *)
Lemma enrich_no_match (file : AudioFile) (data track : JsVal) :
  firstMatch data = inr track -> truthy track = false ->
  enrich file data = inr file.
Proof. intros E T. unfold enrich. rewrite E. cbn [andThen]. now rewrite T. Qed.

Lemma enrich_frame (file enriched : AudioFile) (data : JsVal) :
  enrich file data = inr enriched ->
  id enriched = id file /\ filename enriched = filename file
  /\ uri enriched = uri file.
Proof.
  unfold enrich. destruct (firstMatch data) as [e|track]; [discriminate|].
  cbn [andThen]. destruct (truthy track); [|intros [= <-]; auto].
  unfold merge.
  read track "album" as album; [discriminate|].
  read album "images" as images; [discriminate|].
  first_of images as image; [discriminate|].
  guarded image "url" as url.
  read track "artists" as artists; [discriminate|].
  first_of artists as artist0; [discriminate|].
  guarded artist0 "name" as name.
  read album "name" as albumName; [discriminate|].
  intros [= <-]. auto.
Qed.

(* ------------------------------------------------------------------ *)
(** ** One lookup *)

Lemma logged_nil (w : World) : logged w [] = w.
Proof. destruct w. unfold logged. simpl. now rewrite app_nil_r. Qed.

Lemma logged_app (w : World) (a b : list Event) :
  logged (logged w a) b = logged w (a ++ b).
Proof. unfold logged. simpl. now rewrite app_assoc. Qed.

Lemma lookup_fulfilled (env : Env) (token : string) (i : nat) (file : AudioFile)
    (data : JsVal) (w : World) :
  axiosGet env i (searchUrl file) ("Bearer " ++ token) = Fulfilled data ->
  lookup env token i file w
  = match enrich file data with
    | inr enriched => (Ok enriched, w)
    | inl _ => (Ok file, logged w [lookupError])
    end.
Proof.
  intros H. unfold lookup, tryCatch, bind. rewrite H. simpl.
  now destruct (enrich file data).
Qed.

Lemma lookup_rejected (env : Env) (token : string) (i : nat) (file : AudioFile)
    (e : Exn) (w : World) :
  axiosGet env i (searchUrl file) ("Bearer " ++ token) = Rejected e ->
  lookup env token i file w = (Ok file, logged w [lookupError]).
Proof. intros H. unfold lookup, tryCatch, bind. now rewrite H. Qed.

(** A lookup never rejects: it ends with [outcome] and at most writes to
    the console. *)
Lemma lookup_outcome (env : Env) (token : string) (i : nat) (file : AudioFile)
    (w : World) :
  exists log,
    lookup env token i file w = (Ok (outcome env token i file), logged w log)
    /\ forallb isConsole log = true.
Proof.
  unfold outcome, settled.
  destruct (axiosGet env i (searchUrl file) ("Bearer " ++ token)) as [data|e] eqn:H.
  - rewrite (lookup_fulfilled _ _ _ _ _ _ H).
    destruct (enrich file data).
    + exists [lookupError]. auto.
    + exists []. now rewrite logged_nil.
  - rewrite (lookup_rejected _ _ _ _ _ _ H). exists [lookupError]. auto.
Qed.

Lemma outcome_frame (env : Env) (token : string) (i : nat) (file : AudioFile) :
  id (outcome env token i file) = id file
  /\ filename (outcome env token i file) = filename file
  /\ uri (outcome env token i file) = uri file.
Proof.
  unfold outcome, settled.
  destruct (axiosGet env i (searchUrl file) ("Bearer " ++ token)) as [data|e]; auto.
  destruct (enrich file data) as [e|enriched] eqn:E; auto.
  now apply enrich_frame with data.
Qed.



(** The three reads of the object literal, one after the other. *)
Lemma merge_reads (file : AudioFile) (track : JsVal) :
  merge file track
  = (url <~ coverOf track ;;
     name <~ artistOf track ;;
     albumName <~ albumOf track ;;
     inr (mkAudioFile (id file) (filename file) (uri file)
            (asOptString url) (asOptString name) (asOptString albumName))).
Proof.
  unfold merge, coverOf, artistOf, albumOf.
  destruct (getProp track "album") as [e|album]; [reflexivity|].
  cbn [andThen].
  destruct (getProp album "images") as [e|images]; [reflexivity|].
  cbn [andThen].
  destruct (getFirst images) as [e|image]; [reflexivity|].
  cbn [andThen].
  destruct (getPropOpt image "url") as [e|url]; [reflexivity|].
  cbn [andThen].
  destruct (getProp track "artists") as [e|artists]; [reflexivity|].
  cbn [andThen].
  destruct (getFirst artists) as [e|artist0]; [reflexivity|].
  cbn [andThen].
  now destruct (getPropOpt artist0 "name") as [e|name].
Qed.

Lemma copied_asOptString (raw : JsVal) : copied raw (asOptString raw).
Proof. now destruct raw. Qed.



(** The lookup that finds a match with its [album.images] and its
    [artists]: the three reads succeed and their values are assigned. *)
Lemma lookup_match (env : Env) (token : string) (i : nat) (file : AudioFile)
    (data track : JsVal) (w : World) :
  axiosGet env i (searchUrl file) ("Bearer " ++ token) = Fulfilled data ->
  firstMatch data = inr track ->
  truthy track = true ->
  missing (path track ["album"; "images"]) = false ->
  missing (path track ["artists"]) = false ->
  exists url name albumName,
    coverOf track = inr url
    /\ artistOf track = inr name
    /\ albumOf track = inr albumName
    /\ lookup env token i file w
       = (Ok (mkAudioFile (id file) (filename file) (uri file)
                (asOptString url) (asOptString name) (asOptString albumName)),
          w).
Proof.
  intros Hget Hfirst Htruthy Himages Hartists.
  rewrite (lookup_fulfilled _ _ _ _ _ _ Hget). unfold enrich.
  rewrite Hfirst. cbn [andThen]. rewrite Htruthy.
  pose proof (merge_raises file track) as Hraises.
  rewrite Himages, Hartists in Hraises. rewrite merge_reads in *.
  destruct (coverOf track) as [e|url]; [discriminate|].
  destruct (artistOf track) as [e|name]; [discriminate|].
  destruct (albumOf track) as [e|albumName]; [discriminate|].
  now exists url, name, albumName.
Qed.

(** C8, as the code has it. When the lookup of a track is answered with
    a first match that has its [album.images] and its [artists], the
    resulting track has the id, filename and uri of the input, and its
    cover, artist and album are what the match holds at
    [album.images[0]?.url], [artists[0]?.name] and [album.name]: the
    string where that is a string, unset where that is [undefined];
    nothing else happens. *)
Theorem lookup_merges_first_match (env : Env) (token : string) (i : nat)
    (file : AudioFile) (data track : JsVal) (w : World) :
  axiosGet env i (searchUrl file) ("Bearer " ++ token) = Fulfilled data ->
  firstMatch data = inr track ->
  truthy track = true ->
  missing (path track ["album"; "images"]) = false ->
  missing (path track ["artists"]) = false ->
  exists enriched url name albumName,
    lookup env token i file w = (Ok enriched, w)
    /\ coverOf track = inr url
    /\ artistOf track = inr name
    /\ albumOf track = inr albumName
    /\ copied url (albumCover enriched)
    /\ copied name (artist enriched)
    /\ copied albumName (album enriched)
    /\ id enriched = id file
    /\ filename enriched = filename file
    /\ uri enriched = uri file.
Proof.
  intros Hget Hfirst Htruthy Himages Hartists.
  destruct (lookup_match env token i file data track w
              Hget Hfirst Htruthy Himages Hartists)
    as (url & name & albumName & Hcover & Hartist & Halbum & Hlookup).
  exists (mkAudioFile (id file) (filename file) (uri file)
            (asOptString url) (asOptString name) (asOptString albumName)),
         url, name, albumName.
  split; [exact Hlookup|].
  split; [exact Hcover|]. split; [exact Hartist|]. split; [exact Halbum|].
  cbn [albumCover artist album id filename uri].
  split; [apply copied_asOptString|].
  split; [apply copied_asOptString|].
  split; [apply copied_asOptString|].
  repeat split.
Qed.

Lemma lookup_merges_first_match_witness :
  exists enriched url name albumName,
    lookup (samplePlatform tokenGranted true "granted") "BQDtoken" 0
           (mkAudioFile "1" "song.mp3" "file:///music/song.mp3" None None None)
           (mount ∅)
    = (Ok enriched, mount ∅)
    /\ coverOf (JObj
         [("album", JObj [("images", JArr [JObj [("url", JStr "https://i.scdn.co/image/1")]]);
                          ("name", JStr "Album")]);
          ("artists", JArr [JObj [("name", JStr "Artist")]])]) = inr url
    /\ artistOf (JObj
         [("album", JObj [("images", JArr [JObj [("url", JStr "https://i.scdn.co/image/1")]]);
                          ("name", JStr "Album")]);
          ("artists", JArr [JObj [("name", JStr "Artist")]])]) = inr name
    /\ albumOf (JObj
         [("album", JObj [("images", JArr [JObj [("url", JStr "https://i.scdn.co/image/1")]]);
                          ("name", JStr "Album")]);
          ("artists", JArr [JObj [("name", JStr "Artist")]])]) = inr albumName
    /\ copied url (albumCover enriched)
    /\ copied name (artist enriched)
    /\ copied albumName (album enriched)
    /\ id enriched = "1"
    /\ filename enriched = "song.mp3"
    /\ uri enriched = "file:///music/song.mp3".
Proof.
  apply (lookup_merges_first_match
           (samplePlatform tokenGranted true "granted") "BQDtoken" 0
           (mkAudioFile "1" "song.mp3" "file:///music/song.mp3" None None None)
           catalogHit
           (JObj
              [("album", JObj [("images", JArr [JObj [("url", JStr "https://i.scdn.co/image/1")]]);
                               ("name", JStr "Album")]);
               ("artists", JArr [JObj [("name", JStr "Artist")]])])
           (mount ∅)); reflexivity.
Defined.

(** C8, as stated, fails: the lookup is answered with a match that has
    an album with a cover and a name, but no [artists]; the object
    literal raises on [artists[0]], and the resulting track is the input
    track, its cover and album not updated from the match. *)
Lemma match_without_artists_not_merged :
  axiosGet (uniformPlatform (Fulfilled catalogAlbumOnly)) 1
           (searchUrl sampleFile) ("Bearer " ++ "BQDtoken")
  = Fulfilled catalogAlbumOnly
  /\ (exists track,
        firstMatch catalogAlbumOnly = inr track
        /\ truthy track = true
        /\ coverOf track = inr (JStr "https://i.scdn.co/image/1")
        /\ albumOf track = inr (JStr "Album"))
  /\ lookup (uniformPlatform (Fulfilled catalogAlbumOnly)) "BQDtoken" 1
            sampleFile (mount ∅)
     = (Ok sampleFile, logged (mount ∅) [lookupError])
  /\ albumCover sampleFile = None
  /\ album sampleFile = None.
Proof.
  split; [reflexivity|]. split; [|repeat split].
  eexists. repeat split.
Qed.




(* ------------------------------------------------------------------ *)
(** ** The batch of lookups *)

Lemma allWritten_fmap {A} (l : list A) : allWritten (Some <$> l) = Some l.
Proof.
  induction l as [|x l IH]; [reflexivity|].
  rewrite fmap_cons. cbn [allWritten]. now rewrite IH.
Qed.

Lemma forEach_request (token : string) (files : list AudioFile) (w : World) :
  forEach (request token) files w
  = (Ok tt, logged w (map (fun file => HttpGet (searchUrl file) ("Bearer " ++ token))
                          files)).
Proof.
  revert w. induction files as [|f files IH]; intros w.
  - simpl. unfold ret. now rewrite logged_nil.
  - cbn [forEach map]. unfold bind. rewrite request_url.
    rewrite IH, logged_app. reflexivity.
Qed.

Section Batch.

Variable env : Env.
Variable token : string.
Variable files : list AudioFile.

Lemma settle_spec (order : list nat) :
  forall (slots : list (option AudioFile)) (w : World),
    slotsOk env token files slots ->
    exists slots' log,
      settle (imap (lookup env token) files) order slots w
      = (Ok slots', logged w log)
      /\ forallb isConsole log = true
      /\ slotsOk env token files slots'
      /\ forall j, j < length files ->
                   (j ∈ order \/ exists r, slots !! j = Some (Some r)) ->
                   exists r, slots' !! j = Some (Some r).
Proof.
  induction order as [|i later IH]; intros slots w [Hlen Hval].
  - exists slots, []. cbn [settle]. unfold ret. rewrite logged_nil.
    repeat split; auto.
    intros j _ [Hin|Hw]; [|exact Hw]. now apply elem_of_nil in Hin.
  - cbn [settle]. rewrite list_lookup_imap.
    destruct (files !! i) as [f|] eqn:Hf; cbn [fmap option_fmap option_map].
    + destruct (slots !! i) as [[r|]|] eqn:Hs.
      * destruct (IH slots w (conj Hlen Hval)) as (slots' & log & E & Hlog & Hok & Hcov).
        exists slots', log. repeat split; try assumption; try apply Hok.
        intros j Hj [Hin|Hw]; apply Hcov; auto.
        apply elem_of_cons in Hin as [->|Hin]; eauto.
      * destruct (lookup_outcome env token i f w) as (log1 & E1 & Hlog1).
        unfold bind at 1. rewrite E1.
        assert (Hok1 : slotsOk env token files (<[i := Some (outcome env token i f)]> slots)).
        { split; [now rewrite length_insert|].
          intros j r Hj. destruct (decide (i = j)) as [<-|Hne].
          - rewrite list_lookup_insert_eq in Hj
              by (apply lookup_lt_Some in Hs; exact Hs).
            injection Hj as <-. eauto.
          - rewrite list_lookup_insert_ne in Hj by exact Hne. eauto. }
        destruct (IH _ (logged w log1) Hok1) as (slots' & log & E & Hlog & Hok & Hcov).
        exists slots', (log1 ++ log)%list. rewrite E, logged_app.
        repeat split; try apply Hok.
        { rewrite forallb_app, Hlog1, Hlog. reflexivity. }
        intros j Hj [Hin|[r Hw]]; apply Hcov; auto.
        { apply elem_of_cons in Hin as [->|Hin]; [right | now left].
          rewrite list_lookup_insert_eq by (apply lookup_lt_Some in Hs; exact Hs).
          eauto. }
        right. destruct (decide (i = j)) as [<-|Hne]; [congruence|].
        rewrite list_lookup_insert_ne by exact Hne. eauto.
      * apply lookup_ge_None in Hs. apply lookup_lt_Some in Hf. lia.
    + destruct (IH slots w (conj Hlen Hval)) as (slots' & log & E & Hlog & Hok & Hcov).
      exists slots', log. repeat split; try assumption; try apply Hok.
      intros j Hj [Hin|Hw]; apply Hcov; auto.
      apply elem_of_cons in Hin as [->|Hin]; [|now left].
      apply lookup_ge_None in Hf. lia.
Qed.

Lemma slots_complete (slots : list (option AudioFile)) :
  slotsOk env token files slots ->
  (forall j, j < length files -> exists r, slots !! j = Some (Some r)) ->
  slots = Some <$> imap (outcome env token) files.
Proof.
  intros [Hlen Hval] Hall. apply list_eq. intros j.
  rewrite list_lookup_fmap, list_lookup_imap.
  destruct (files !! j) as [f|] eqn:Hf; simpl.
  - destruct (Hall j) as [r Hr]; [now apply lookup_lt_Some in Hf|].
    rewrite Hr. destruct (Hval j r Hr) as (f' & Hf' & ->). congruence.
  - apply lookup_ge_None. apply lookup_ge_None in Hf. lia.
Qed.

(** The batch ends with the outcomes in scan order as soon as every
    lookup settles, in whatever order they do. *)
Lemma enhance_spec (w : World) :
  (forall i, i < length files -> i ∈ settleOrder env) ->
  exists log,
    enhanceAudioWithSpotifyData env files token w
    = (Ok (imap (outcome env token) files),
       logged w (map (fun file => HttpGet (searchUrl file) ("Bearer " ++ token)) files
                   ++ log))
    /\ forallb isConsole log = true.
Proof.
  intros Hsettles. unfold enhanceAudioWithSpotifyData, promiseAll.
  unfold bind at 1. rewrite forEach_request.
  set (w1 := logged w _).
  assert (Hok0 : slotsOk env token files (replicate (length (imap (lookup env token) files)) None)).
  { split; [now rewrite length_replicate, length_imap|].
    intros j r Hj. apply lookup_replicate in Hj as [Hj _]. discriminate. }
  destruct (settle_spec (settleOrder env) _ w1 Hok0)
    as (slots' & log & E & Hlog & Hok & Hcov).
  unfold bind. rewrite E.
  rewrite (slots_complete slots' Hok), allWritten_fmap.
  - exists log. unfold ret, w1. now rewrite logged_app.
  - intros j Hj. apply Hcov; auto.
Qed.

End Batch.

(** A lookup that never settles keeps the whole batch waiting. *)
Lemma settle_untouched {A} (conts : list (M A)) (j : nat) (order : list nat) :
  j ∉ order ->
  forall (slots slots' : list (option A)) (w w' : World),
    settle conts order slots w = (Ok slots', w') ->
    slots' !! j = slots !! j.
Proof.
  induction order as [|i later IH]; intros Hj slots slots' w w' E.
  - cbn [settle] in E. now injection E as <- _.
  - apply not_elem_of_cons in Hj as [Hne Hlater].
    cbn [settle] in E.
    destruct (conts !! i) as [k|]; [|now apply (IH Hlater _ _ _ _ E)].
    destruct (slots !! i) as [[r|]|]; try now apply (IH Hlater _ _ _ _ E).
    unfold bind in E. destruct (k w) as [[r| |] w1]; try discriminate.
    rewrite (IH Hlater _ _ _ _ E).
    now apply list_lookup_insert_ne.
Qed.

Lemma allWritten_hole {A} (slots : list (option A)) (j : nat) :
  slots !! j = Some None -> allWritten slots = None.
Proof.
  revert j. induction slots as [|[r|] slots IH]; intros [|j] H;
    try discriminate; try reflexivity.
  simpl in H. cbn [allWritten]. now rewrite (IH j H).
Qed.

Lemma enhance_pending (env : Env) (token : string) (files : list AudioFile)
    (w : World) (j : nat) :
  j < length files ->
  j ∉ settleOrder env ->
  fst (enhanceAudioWithSpotifyData env files token w) = Pending.
Proof.
  intros Hlt Hj. unfold enhanceAudioWithSpotifyData, promiseAll.
  unfold bind at 1. rewrite forEach_request.
  set (w1 := logged w _).
  assert (Hok0 : slotsOk env token files
                   (replicate (length (imap (lookup env token) files)) None)).
  { split; [now rewrite length_replicate, length_imap|].
    intros i r Hi. apply lookup_replicate in Hi as [Hi _]. discriminate. }
  destruct (settle_spec env token files (settleOrder env) _ w1 Hok0)
    as (slots' & log & E & _).
  unfold bind. rewrite E.
  rewrite (allWritten_hole slots' j); [reflexivity|].
  rewrite (settle_untouched _ _ _ Hj _ _ _ _ E).
  apply lookup_replicate. split; [reflexivity|]. now rewrite length_imap.
Qed.

(** C4. Whatever the catalog answers to each lookup (a match, no match,
    a malformed answer, a rejection) and in whatever order the answers
    arrive, once every lookup has settled the batch returns, without an
    exception, a list as long as the input whose i-th track is the
    outcome of the lookup of the i-th input track and has its id,
    filename and uri. *)
Theorem enhance_preserves_scan_order (env : Env) (files : list AudioFile)
    (token : string) (w : World) :
  (forall i, i < length files -> i ∈ settleOrder env) ->
  exists enhanced w',
    enhanceAudioWithSpotifyData env files token w = (Ok enhanced, w')
    /\ length enhanced = length files
    /\ forall i file,
         files !! i = Some file ->
         exists file',
           enhanced !! i = Some file'
           /\ file' = settled file (axiosGet env i (searchUrl file)
                                              ("Bearer " ++ token))
           /\ id file' = id file
           /\ filename file' = filename file
           /\ uri file' = uri file.
Proof.
  intros Hsettles.
  destruct (enhance_spec env token files w Hsettles) as (log & E & _).
  eexists _, _. split; [exact E|]. split; [apply length_imap|].
  intros i file Hfile. exists (outcome env token i file).
  rewrite list_lookup_imap, Hfile. split; [reflexivity|]. split; [reflexivity|].
  apply outcome_frame.
Qed.

Lemma enhance_preserves_scan_order_witness :
  exists enhanced w',
    enhanceAudioWithSpotifyData (samplePlatform tokenGranted true "granted")
      (map toFile sampleAssets) "BQDtoken" (mount ∅)
    = (Ok enhanced, w')
    /\ length enhanced = 3
    /\ forall i file,
         map toFile sampleAssets !! i = Some file ->
         exists file',
           enhanced !! i = Some file'
           /\ file' = settled file
                              (axiosGet (samplePlatform tokenGranted true "granted")
                                        i (searchUrl file) ("Bearer " ++ "BQDtoken"))
           /\ id file' = id file
           /\ filename file' = filename file
           /\ uri file' = uri file.
Proof.
  apply (enhance_preserves_scan_order
           (samplePlatform tokenGranted true "granted")
           (map toFile sampleAssets) "BQDtoken" (mount ∅)).
  intros i Hi. simpl in Hi.
  destruct i as [|[|[|i]]]; [set_solver | set_solver | set_solver | lia].
Defined.

(** The sample batch: the three answers arrive out of order (third,
    first, second) and the result is in scan order. *)
Example enhance_sample :
  fst (enhanceAudioWithSpotifyData (samplePlatform tokenGranted true "granted")
         (map toFile sampleAssets) "BQDtoken" (mount ∅))
  = Ok snapshot3.
Proof. reflexivity. Qed.

(* ------------------------------------------------------------------ *)
(** ** The token and the snapshot *)

Lemma fetchSpotifyToken_spec (env : Env) (w : World) :
  exists w',
    fetchSpotifyToken env w = (Ok (obtainedToken env), w')
    /\ audioFiles w' = audioFiles w
    /\ loading w' = loading w
    /\ asyncStorage w' = asyncStorage w
    /\ exists log,
         trace w' = (trace w ++ tokenRequest env :: log)%list
         /\ forallb isConsole log = true.
Proof.
  unfold fetchSpotifyToken, obtainedToken, tryCatch, bind, emit, tokenUrl.
  destruct (axiosPost env _ _ _) as [data|e]; simpl.
  - destruct (getProp data "access_token") as [e|v]; simpl.
    + eexists. split; [reflexivity|]. simpl. repeat split.
      exists [ConsoleError "Error fetching Spotify token:"].
      split; [|reflexivity]. now rewrite <- app_assoc.
    + eexists. split; [reflexivity|]. simpl. repeat split.
      exists []. auto.
  - eexists. split; [reflexivity|]. simpl. repeat split.
    exists [ConsoleError "Error fetching Spotify token:"].
    split; [|reflexivity]. now rewrite <- app_assoc.
Qed.

Lemma loadAudioDataFromStorage_spec (env : Env) (w : World) :
  exists log,
    loadAudioDataFromStorage env w
    = (Ok (cachedOf env (asyncStorage w)), logged w log)
    /\ forallb isConsole log = true.
Proof.
  unfold loadAudioDataFromStorage, cachedOf, tryCatch, bind, AsyncStorage.getItem.
  destruct (getItemFails env); simpl.
  - exists [ConsoleError "Error loading audio data from storage:"]. auto.
  - destruct (asyncStorage w !! "audioFiles") as [text|].
    + destruct (JSON.parse text) as [files|]; simpl.
      * exists []. now rewrite logged_nil.
      * exists [ConsoleError "Error loading audio data from storage:"]. auto.
    + exists []. unfold ret. now rewrite logged_nil.
Qed.

Lemma storeAudioData_spec (env : Env) (files : list AudioFile) (w : World) :
  storeAudioData env files w
  = if setItemFails env
    then (Ok tt, logged w [ConsoleError "Error saving audio data:"])
    else (Ok tt, mkWorld (audioFiles w) (loading w) (accessToken w)
                         (<["audioFiles" := JSON.stringify files]> (asyncStorage w))
                         (trace w)).
Proof.
  unfold storeAudioData, tryCatch, AsyncStorage.setItem.
  now destruct (setItemFails env).
Qed.

(** C5. When the store works, what [loadAudioDataFromStorage] reads
    right after [storeAudioData] is the library that was stored, track
    for track and field for field. *)
Theorem store_then_load (env : Env) (files : list AudioFile) (w : World) :
  setItemFails env = false ->
  getItemFails env = false ->
  exists w1,
    storeAudioData env files w = (Ok tt, w1)
    /\ loadAudioDataFromStorage env w1 = (Ok (CachedFiles files), w1).
Proof.
  intros Hset Hget. rewrite storeAudioData_spec, Hset.
  eexists. split; [reflexivity|].
  unfold loadAudioDataFromStorage, tryCatch, bind, AsyncStorage.getItem.
  rewrite Hget. simpl. rewrite lookup_insert_eq.
  now rewrite parse_stringify.
Qed.

Lemma store_then_load_witness :
  exists w1,
    storeAudioData (samplePlatform tokenGranted true "granted") snapshot3 (mount ∅)
    = (Ok tt, w1)
    /\ loadAudioDataFromStorage (samplePlatform tokenGranted true "granted") w1
       = (Ok (CachedFiles snapshot3), w1).
Proof.
  apply (store_then_load (samplePlatform tokenGranted true "granted")
           snapshot3 (mount ∅)); reflexivity.
Defined.

(* ------------------------------------------------------------------ *)
(** ** The device scan *)

Lemma fetchAudioFiles_denied_world (env : Env) (token : string) (w : World)
    (status : string) :
  requestPermissionsAsync env = Fulfilled status ->
  status <> "granted" ->
  fetchAudioFiles env token w
  = (Ok tt, mkWorld (audioFiles w) false (accessToken w) (asyncStorage w)
                    (trace w ++ [PermissionRequest; deniedNotice])).
Proof.
  intros Hperm Hstatus.
  unfold fetchAudioFiles, tryFinally, tryCatch, bind, emit, setLoading.
  simpl. rewrite Hperm. simpl.
  apply String.eqb_neq in Hstatus. rewrite Hstatus. simpl.
  now rewrite <- app_assoc.
Qed.

(** C6. When the permission request is answered with anything but
    'granted', [fetchAudioFiles] returns normally, leaves the library as
    it was (empty, as it is when the provider calls it), prints the
    notice and clears the loading flag; it neither scans the device nor
    asks the catalog. *)
Theorem fetchAudioFiles_denied (env : Env) (token : string) (w : World)
    (status : string) :
  requestPermissionsAsync env = Fulfilled status ->
  status <> "granted" ->
  exists w',
    fetchAudioFiles env token w = (Ok tt, w')
    /\ audioFiles w' = audioFiles w
    /\ (audioFiles w = [] -> ctxAudioFiles (providerValue w') = [])
    /\ trace w' = (trace w ++ [PermissionRequest; deniedNotice])%list
    /\ loading w' = false.
Proof.
  intros Hperm Hstatus.
  rewrite (fetchAudioFiles_denied_world _ _ _ _ Hperm Hstatus).
  eexists. split; [reflexivity|]. simpl. auto.
Qed.

Lemma fetchAudioFiles_denied_witness :
  exists w',
    fetchAudioFiles (samplePlatform tokenGranted true "denied") "BQDtoken" (mount ∅)
    = (Ok tt, w')
    /\ audioFiles w' = audioFiles (mount ∅)
    /\ (audioFiles (mount ∅) = [] -> ctxAudioFiles (providerValue w') = [])
    /\ trace w' = (trace (mount ∅) ++ [PermissionRequest; deniedNotice])%list
    /\ loading w' = false.
Proof.
  apply (fetchAudioFiles_denied (samplePlatform tokenGranted true "denied")
           "BQDtoken" (mount ∅) "denied"); [reflexivity | discriminate].
Defined.

(* ------------------------------------------------------------------ *)
(** ** Initialisation *)

(** The two branches of [initialize] after the token request and the
    read of the snapshot. *)
Lemma initialize_unfold (env : Env) (w : World) :
  exists w1 log,
    fetchSpotifyToken env w = (Ok (obtainedToken env), w1)
    /\ audioFiles w1 = audioFiles w
    /\ loading w1 = loading w
    /\ asyncStorage w1 = asyncStorage w
    /\ (exists log1, trace w1 = (trace w ++ tokenRequest env :: log1)%list
                     /\ forallb isConsole log1 = true)
    /\ forallb isConsole log = true
    /\ initialize env w
       = match cachedOf env (asyncStorage w), negb (onLine env) with
         | CachedFiles files, true =>
             (Ok tt, mkWorld files false (accessToken w1) (asyncStorage w1)
                             (trace w1 ++ log ++ [ConsoleLog "Loaded from cache:"]))
         | _, _ =>
             match obtainedToken env with
             | Some t =>
                 if truthyToken (obtainedToken env) && onLine env
                 then fetchAudioFiles env t (logged w1 log)
                 else (Ok tt, logged w1 log)
             | None => (Ok tt, logged w1 log)
             end
         end.
Proof.
  destruct (fetchSpotifyToken_spec env w) as (w1 & Etok & Hfiles & Hloading & Hstore & Htrace).
  destruct (loadAudioDataFromStorage_spec env w1) as (log & Eload & Hlog).
  exists w1, log. repeat split; try assumption.
  unfold initialize, bind. rewrite Etok, Eload, Hstore.
  destruct (cachedOf env (asyncStorage w)) as [| |files];
    destruct (onLine env); simpl;
    try (destruct (obtainedToken env) as [t|]; [|reflexivity];
         now destruct (truthyToken (Some t))).
  unfold emit, setAudioFiles, setLoading. simpl.
  now rewrite <- app_assoc, Hstore.
Qed.

Lemma console_no_network (log : list Event) :
  forallb isConsole log = true -> networkCalls log = [].
Proof.
  induction log as [|ev log IH]; [reflexivity|].
  simpl. intros H. apply andb_true_iff in H as [Hev Hlog].
  destruct ev; try discriminate; simpl; auto.
Qed.

Lemma console_no_media (log : list Event) :
  forallb isConsole log = true -> mediaCalls log = [].
Proof.
  induction log as [|ev log IH]; [reflexivity|].
  simpl. intros H. apply andb_true_iff in H as [Hev Hlog].
  destruct ev; try discriminate; simpl; auto.
Qed.

Lemma console_no_catalog (log : list Event) :
  forallb isConsole log = true -> catalogCalls log = [].
Proof.
  induction log as [|ev log IH]; [reflexivity|].
  simpl. intros H. apply andb_true_iff in H as [Hev Hlog].
  destruct ev; try discriminate; simpl; auto.
Qed.

(** The run in which neither branch of [initialize] is taken: nothing
    but the token request happens, and no state cell is written after
    it, so the library is still empty and the loading flag still set. *)
Lemma initialize_idle (env : Env) (stored : gmap string string) :
  (truthyToken (obtainedToken env) = false /\ onLine env = true)
  \/ (onLine env = false /\ truthyCached (cachedOf env stored) = false) ->
  exists w',
    initialize env (mount stored) = (Ok tt, w')
    /\ audioFiles w' = []
    /\ loading w' = true
    /\ asyncStorage w' = stored
    /\ exists log, trace w' = tokenRequest env :: log
                   /\ forallb isConsole log = true.
Proof.
  intros Hidle.
  destruct (initialize_unfold env (mount stored))
    as (w1 & log & _ & Hfiles & Hloading & Hstore & (log1 & Htrace & Hlog1) & Hlog & E).
  exists (logged w1 log). repeat split; auto.
  - rewrite E. simpl asyncStorage.
    destruct Hidle as [[Htoken Honline]|[Hoffline Hcache]].
    + rewrite Honline.
      assert (Hskip : match obtainedToken env with
                      | Some t =>
                          if truthyToken (obtainedToken env) && true
                          then fetchAudioFiles env t (logged w1 log)
                          else (Ok tt, logged w1 log)
                      | None => (Ok tt, logged w1 log)
                      end = (Ok tt, logged w1 log)).
      { rewrite Htoken. now destruct (obtainedToken env). }
      now destruct (cachedOf env stored).
    + rewrite Hoffline, andb_false_r.
      destruct (cachedOf env stored); try discriminate;
        now destruct (obtainedToken env).
  - exists (log1 ++ log)%list. simpl. rewrite Htrace. simpl.
    split; [reflexivity|]. now rewrite forallb_app, Hlog1, Hlog.
Qed.

(** A token that [initialize] finds falsy is no string the provider
    could use. *)
Lemma rawToken_falsy (env : Env) :
  truthy (rawToken env) = false -> truthyToken (obtainedToken env) = false.
Proof.
  unfold rawToken, tokenOf, obtainedToken.
  destruct (axiosPost env _ _ _) as [data|e]; [|reflexivity].
  destruct (getProp data "access_token") as [e|v]; [reflexivity|].
  now destruct v.
Qed.

Lemma tokenRequest_isTokenPost (env : Env) : isTokenPost (tokenRequest env) = true.
Proof. reflexivity. Qed.

(** C1, as the code has it. When the token request fails or yields no
    token (no [access_token], or a falsy one) and the device is online,
    the device is not scanned: the run ends normally with the library
    empty, whatever the assets and the permission, and neither the media
    library nor the catalog is called. *)
Theorem initialize_without_token (env : Env) (stored : gmap string string) :
  truthy (rawToken env) = false ->
  onLine env = true ->
  exists w',
    initialize env (mount stored) = (Ok tt, w')
    /\ audioFiles w' = []
    /\ mediaCalls (trace w') = []
    /\ catalogCalls (trace w') = [].
Proof.
  intros Htoken Honline. apply rawToken_falsy in Htoken.
  destruct (initialize_idle env stored (or_introl (conj Htoken Honline)))
    as (w' & E & Hfiles & _ & _ & log & Htrace & Hlog).
  exists w'. rewrite Htrace. repeat split; auto.
  - simpl. now apply console_no_media.
  - simpl. now apply console_no_catalog.
Qed.

Lemma initialize_without_token_witness :
  exists w',
    initialize (samplePlatform tokenRefused true "granted") (mount ∅) = (Ok tt, w')
    /\ audioFiles w' = []
    /\ mediaCalls (trace w') = []
    /\ catalogCalls (trace w') = [].
Proof.
  apply (initialize_without_token (samplePlatform tokenRefused true "granted") ∅);
    reflexivity.
Defined.

(** C1, as stated, fails: the token endpoint answers 401, the
    permission is granted, the device is online and has three audio
    assets, and the library stays empty instead of holding the three
    unenriched tracks; the device is never scanned. *)
Lemma token_refused_no_scan :
  let env := samplePlatform tokenRefused true "granted" in
  let w' := snd (initialize env (mount ∅)) in
  rawToken env = JUndefined
  /\ onLine env = true
  /\ requestPermissionsAsync env = Fulfilled "granted"
  /\ getAssetsAsync env = Fulfilled sampleAssets
  /\ fst (initialize env (mount ∅)) = Ok tt
  /\ audioFiles w' = []
  /\ audioFiles w' <> map toFile sampleAssets
  /\ mediaCalls (trace w') = [].
Proof. repeat split. discriminate. Qed.

(** C2, as the code has it. Offline, with a snapshot in the store that
    can be read, the run ends with exactly the tracks of the snapshot
    and the loading flag cleared; it asks the catalog nothing and does
    not touch the media library.  It makes at most one network call, a
    POST of [grant_type=client_credentials] to the token endpoint; when
    the client id and secret are ASCII it makes exactly that call, with
    the Basic credentials [btoa(id:secret)]. *)
Theorem initialize_offline_cached (env : Env) (stored : gmap string string)
    (files : list AudioFile) :
  onLine env = false ->
  getItemFails env = false ->
  stored !! "audioFiles" = Some (JSON.stringify files) ->
  exists w',
    initialize env (mount stored) = (Ok tt, w')
    /\ audioFiles w' = files
    /\ loading w' = false
    /\ catalogCalls (trace w') = []
    /\ mediaCalls (trace w') = []
    /\ length (networkCalls (trace w')) <= 1
    /\ forallb isTokenPost (networkCalls (trace w')) = true
    /\ (asciiCredentials env = true ->
        networkCalls (trace w') = [tokenRequest env]).
Proof.
  intros Hoffline Hget Hstored.
  destruct (initialize_unfold env (mount stored))
    as (w1 & log & _ & _ & _ & _ & (log1 & Htrace & Hlog1) & Hlog & E).
  assert (Hcached : cachedOf env stored = CachedFiles files).
  { unfold cachedOf. now rewrite Hget, Hstored, parse_stringify. }
  simpl asyncStorage in E. rewrite Hcached, Hoffline in E. simpl in E.
  eexists. split; [exact E|]. simpl. rewrite Htrace. simpl.
  unfold networkCalls, catalogCalls, mediaCalls.
  rewrite !List.filter_app. simpl.
  fold (networkCalls log1) (networkCalls log) (catalogCalls log1)
       (catalogCalls log) (mediaCalls log1) (mediaCalls log).
  rewrite !console_no_network, !console_no_catalog, !console_no_media by assumption.
  simpl. repeat split. lia.
Qed.

Lemma initialize_offline_cached_witness :
  exists w',
    initialize (samplePlatform tokenRefused false "granted") (mount storedSnapshot)
    = (Ok tt, w')
    /\ audioFiles w' = snapshot3
    /\ loading w' = false
    /\ catalogCalls (trace w') = []
    /\ mediaCalls (trace w') = []
    /\ length (networkCalls (trace w')) <= 1
    /\ forallb isTokenPost (networkCalls (trace w')) = true
    /\ (asciiCredentials (samplePlatform tokenRefused false "granted") = true ->
        networkCalls (trace w')
        = [tokenRequest (samplePlatform tokenRefused false "granted")]).
Proof.
  apply (initialize_offline_cached (samplePlatform tokenRefused false "granted")
           storedSnapshot snapshot3); reflexivity.
Defined.

(** C2, as stated, fails: offline with the snapshot of three tracks the
    provider does expose the three tracks, but the run has made a
    network call, the POST to the token endpoint. *)
Lemma offline_run_posts_token_request :
  let env := samplePlatform tokenRefused false "granted" in
  let w' := snd (initialize env (mount storedSnapshot)) in
  onLine env = false
  /\ storedSnapshot !! "audioFiles" = Some (JSON.stringify snapshot3)
  /\ length snapshot3 = 3
  /\ audioFiles w' = snapshot3
  /\ networkCalls (trace w')
     = [HttpPost "https://accounts.spotify.com/api/token"
                 "grant_type=client_credentials" "Basic Y2xpZW50OnNlY3JldA=="]
  /\ networkCalls (trace w') <> [].
Proof. vm_compute. repeat split. discriminate. Qed.

(** C3, as the code has it. When no token was obtained (the request
    failed, or its answer has no [access_token] or a falsy one) and the
    device is online, or the device is offline and the store holds no
    snapshot, the run ends normally with the library empty. *)
Theorem initialize_nothing_to_do (env : Env) (stored : gmap string string) :
  (truthy (rawToken env) = false /\ onLine env = true)
  \/ (onLine env = false /\ stored !! "audioFiles" = None) ->
  exists w',
    initialize env (mount stored) = (Ok tt, w')
    /\ ctxAudioFiles (providerValue w') = [].
Proof.
  intros Hcase.
  destruct (initialize_idle env stored) as (w' & E & Hfiles & _).
  - destruct Hcase as [[Htoken Honline]|[Hoffline Hnone]]; [left | right].
    + split; [now apply rawToken_falsy | exact Honline].
    + split; [exact Hoffline|]. unfold cachedOf. rewrite Hnone.
      now destruct (getItemFails env).
  - exists w'. auto.
Qed.

Lemma initialize_nothing_to_do_witness :
  exists w',
    initialize (samplePlatform tokenRefused false "granted") (mount ∅) = (Ok tt, w')
    /\ ctxAudioFiles (providerValue w') = [].
Proof.
  apply (initialize_nothing_to_do (samplePlatform tokenRefused false "granted") ∅).
  right. split; reflexivity.
Defined.

(** C3, as stated, fails twice. Without a token and online (no
    snapshot), the run ends with the loading flag still set.  Without a
    token, offline and with the snapshot of three tracks, the run ends
    with the three tracks, not with an empty library. *)
Lemma no_token_flag_and_cache :
  (let env := samplePlatform tokenRefused true "granted" in
   let w' := snd (initialize env (mount ∅)) in
   rawToken env = JUndefined
   /\ fst (initialize env (mount ∅)) = Ok tt
   /\ audioFiles w' = []
   /\ loading w' = true)
  /\ (let env := samplePlatform tokenRefused false "granted" in
      let w' := snd (initialize env (mount storedSnapshot)) in
      rawToken env = JUndefined
      /\ onLine env = false
      /\ fst (initialize env (mount storedSnapshot)) = Ok tt
      /\ audioFiles w' = snapshot3
      /\ audioFiles w' <> []
      /\ loading w' = false).
Proof. vm_compute. repeat split; discriminate. Qed.

(* ------------------------------------------------------------------ *)
(** ** The batch leaves the state alone *)

(** The batch only sends requests and writes to the console, whether or
    not it completes. *)
Lemma enhance_world (env : Env) (token : string) (files : list AudioFile)
    (w : World) :
  exists r log,
    enhanceAudioWithSpotifyData env files token w = (r, logged w log)
    /\ notThrown r.
Proof.
  unfold enhanceAudioWithSpotifyData, promiseAll.
  unfold bind at 1. rewrite forEach_request.
  set (w1 := logged w _).
  assert (Hok0 : slotsOk env token files
                   (replicate (length (imap (lookup env token) files)) None)).
  { split; [now rewrite length_replicate, length_imap|].
    intros i r Hi. apply lookup_replicate in Hi as [Hi _]. discriminate. }
  destruct (settle_spec env token files (settleOrder env) _ w1 Hok0)
    as (slots' & log & E & _).
  unfold bind. rewrite E. unfold w1. rewrite logged_app.
  destruct (allWritten slots'); eexists _, _; split; try reflexivity; exact I.
Qed.

(* ------------------------------------------------------------------ *)
(** ** Complete runs *)

(** The provider's call of [fetchAudioFiles] when the permission is
    refused: the library exposed afterwards is empty and the flag
    cleared. *)
Lemma initialize_permission_denied (env : Env) (stored : gmap string string)
    (status : string) :
  truthyToken (obtainedToken env) = true ->
  onLine env = true ->
  requestPermissionsAsync env = Fulfilled status ->
  status <> "granted" ->
  exists w',
    initialize env (mount stored) = (Ok tt, w')
    /\ providerValue w' = mkAudioContext [] false
    /\ deniedNotice ∈ trace w'.
Proof.
  intros Htoken Honline Hperm Hstatus.
  destruct (initialize_unfold env (mount stored))
    as (w1 & log & _ & Hfiles & _ & _ & _ & _ & E).
  rewrite Honline in E. simpl in E.
  destruct (obtainedToken env) as [t|] eqn:Ht; [|discriminate].
  rewrite Htoken in E. simpl in E.
  rewrite (fetchAudioFiles_denied_world _ _ _ _ Hperm Hstatus) in E.
  assert (E' : initialize env (mount stored)
               = (Ok tt, mkWorld (audioFiles (logged w1 log)) false
                                 (accessToken (logged w1 log))
                                 (asyncStorage (logged w1 log))
                                 (trace (logged w1 log)
                                    ++ [PermissionRequest; deniedNotice]))).
  { rewrite E. now destruct (cachedOf env stored). }
  eexists. split; [exact E'|]. unfold providerValue. simpl. rewrite Hfiles.
  split; [reflexivity|]. set_solver.
Qed.

(** The scenario of the specification on the sample platform: online,
    a token, three assets, a match for the first, none for the second,
    an error for the third.  The library is in scan order, the first
    track enriched, and the snapshot is in the store. *)
Example initialize_sample :
  let w' := snd (initialize (samplePlatform tokenGranted true "granted") (mount ∅)) in
  audioFiles w' = snapshot3
  /\ loading w' = false
  /\ asyncStorage w' !! "audioFiles" = Some (JSON.stringify snapshot3)
  /\ catalogCalls (trace w')
     = [HttpGet "https://api.spotify.com/v1/search?q=song&type=track&limit=1"
                "Bearer BQDtoken";
        HttpGet "https://api.spotify.com/v1/search?q=my&type=track&limit=1"
                "Bearer BQDtoken";
        HttpGet "https://api.spotify.com/v1/search?q=other&type=track&limit=1"
                "Bearer BQDtoken"].
Proof. vm_compute. repeat split. Qed.

(* ================================================================== *)
(** * Further properties of the provider *)

(* ------------------------------------------------------------------ *)
(** ** [fetchSpotifyToken] *)

Lemma fetchSpotifyToken_cases (env : Env) (w : World) :
  fetchSpotifyToken env w
  = match axiosPost env tokenUrl "grant_type=client_credentials"
                    ("Basic " ++ getClientCredentials env) with
    | Fulfilled data =>
        match getProp data "access_token" with
        | inr v =>
            (Ok (asOptString v),
             mkWorld (audioFiles w) (loading w) (asOptString v)
                     (asyncStorage w) (trace w ++ [tokenRequest env]))
        | inl _ => (Ok None, logged w [tokenRequest env; tokenError])
        end
    | Rejected _ => (Ok None, logged w [tokenRequest env; tokenError])
    end.
Proof.
  unfold fetchSpotifyToken, tryCatch, bind, emit, tokenUrl, logged.
  destruct (axiosPost env _ _ _) as [data|e]; simpl.
  - destruct (getProp data "access_token") as [e|v]; simpl;
      [now rewrite <- app_assoc | reflexivity].
  - now rewrite <- app_assoc.
Qed.

(** X1. Whatever the token endpoint answers, [fetchSpotifyToken] returns
    without an exception and has touched neither the library, nor the
    loading flag, nor the store.  It has sent at most one request, a POST
    of [grant_type=client_credentials] to the token endpoint; when the
    client id and secret are ASCII it has sent exactly that request, with
    the Basic credentials [btoa(id:secret)]. *)
Theorem fetchSpotifyToken_one_request (env : Env) (w : World) :
  exists token w' sent,
    fetchSpotifyToken env w = (Ok token, w')
    /\ networkCalls (trace w') = (networkCalls (trace w) ++ sent)%list
    /\ length sent <= 1
    /\ forallb isTokenPost sent = true
    /\ (asciiCredentials env = true ->
        sent = [HttpPost "https://accounts.spotify.com/api/token"
                  "grant_type=client_credentials"
                  ("Basic " ++ btoa (credentials env))])
    /\ audioFiles w' = audioFiles w
    /\ loading w' = loading w
    /\ asyncStorage w' = asyncStorage w.
Proof.
  rewrite fetchSpotifyToken_cases.
  destruct (axiosPost env _ _ _) as [data|e];
    [destruct (getProp data "access_token") as [e|v]|];
    eexists _, _, [tokenRequest env]; (split; [reflexivity|]); simpl;
    unfold networkCalls; rewrite List.filter_app; repeat split; lia.
Qed.

Lemma fetchSpotifyToken_one_request_witness :
  exists token w' sent,
    fetchSpotifyToken (samplePlatform tokenGranted true "granted") (mount ∅)
    = (Ok token, w')
    /\ networkCalls (trace w') = (networkCalls (trace (mount ∅)) ++ sent)%list
    /\ length sent <= 1
    /\ forallb isTokenPost sent = true
    /\ (asciiCredentials (samplePlatform tokenGranted true "granted") = true ->
        sent = [HttpPost "https://accounts.spotify.com/api/token"
                  "grant_type=client_credentials"
                  ("Basic " ++ btoa (credentials
                                       (samplePlatform tokenGranted true "granted")))])
    /\ audioFiles w' = audioFiles (mount ∅)
    /\ loading w' = loading (mount ∅)
    /\ asyncStorage w' = asyncStorage (mount ∅).
Proof.
  apply (fetchSpotifyToken_one_request
           (samplePlatform tokenGranted true "granted") (mount ∅)).
Defined.

(** X2. When the endpoint answers with a body whose [access_token] is a
    string, that string is returned and becomes the [accessToken] state,
    and nothing is printed. *)
Theorem fetchSpotifyToken_success (env : Env) (w : World) (data : JsVal)
    (t : string) :
  axiosPost env tokenUrl "grant_type=client_credentials"
            ("Basic " ++ getClientCredentials env) = Fulfilled data ->
  getProp data "access_token" = inr (JStr t) ->
  exists w',
    fetchSpotifyToken env w = (Ok (Some t), w')
    /\ accessToken w' = Some t
    /\ trace w' = (trace w ++ [tokenRequest env])%list.
Proof.
  intros Hpost Hfield. rewrite fetchSpotifyToken_cases, Hpost, Hfield.
  eexists. repeat split.
Qed.

Lemma fetchSpotifyToken_success_witness :
  exists w',
    fetchSpotifyToken (samplePlatform tokenGranted true "granted") (mount ∅)
    = (Ok (Some "BQDtoken"), w')
    /\ accessToken w' = Some "BQDtoken"
    /\ trace w'
       = (trace (mount ∅)
            ++ [tokenRequest (samplePlatform tokenGranted true "granted")])%list.
Proof.
  apply (fetchSpotifyToken_success (samplePlatform tokenGranted true "granted")
           (mount ∅) (JObj [("access_token", JStr "BQDtoken")]) "BQDtoken");
    reflexivity.
Defined.

(** X3. When the request is rejected (transport error, status outside
    2xx), the error is printed, the result is [undefined] and the
    [accessToken] state keeps the value it had. *)
Theorem fetchSpotifyToken_rejected (env : Env) (w : World) (e : Exn) :
  axiosPost env tokenUrl "grant_type=client_credentials"
            ("Basic " ++ getClientCredentials env) = Rejected e ->
  exists w',
    fetchSpotifyToken env w = (Ok None, w')
    /\ accessToken w' = accessToken w
    /\ trace w' = (trace w ++ [tokenRequest env; tokenError])%list.
Proof.
  intros Hpost. rewrite fetchSpotifyToken_cases, Hpost.
  eexists. repeat split.
Qed.

Lemma fetchSpotifyToken_rejected_witness :
  exists w',
    fetchSpotifyToken (samplePlatform tokenRefused true "granted") (mount ∅)
    = (Ok None, w')
    /\ accessToken w' = accessToken (mount ∅)
    /\ trace w'
       = (trace (mount ∅)
            ++ [tokenRequest (samplePlatform tokenRefused true "granted");
                tokenError])%list.
Proof.
  apply (fetchSpotifyToken_rejected (samplePlatform tokenRefused true "granted")
           (mount ∅) AxiosError); reflexivity.
Defined.

(** X4. A 2xx answer whose body is an object without [access_token] is
    not an error for [fetchSpotifyToken]: nothing is printed, the result
    is [undefined], and [setAccessToken(undefined)] erases whatever token
    the state held. *)
Theorem fetchSpotifyToken_no_field (env : Env) (w : World)
    (props : list (string * JsVal)) :
  axiosPost env tokenUrl "grant_type=client_credentials"
            ("Basic " ++ getClientCredentials env) = Fulfilled (JObj props) ->
  lookupProp "access_token" props = JUndefined ->
  exists w',
    fetchSpotifyToken env w = (Ok None, w')
    /\ accessToken w' = None
    /\ trace w' = (trace w ++ [tokenRequest env])%list.
Proof.
  intros Hpost Hfield. rewrite fetchSpotifyToken_cases, Hpost.
  cbn [getProp]. rewrite Hfield. eexists. repeat split.
Qed.

Lemma fetchSpotifyToken_no_field_witness :
  exists w',
    fetchSpotifyToken
      (mkEnv (Some "client") (Some "secret")
             (fun _ _ _ => Fulfilled (JObj [("error", JStr "invalid_client")]))
             (fun _ _ _ => Rejected AxiosError) [] true
             (Fulfilled "granted") (Fulfilled []) false false)
      (mkWorld [] true (Some "old") ∅ [])
    = (Ok None, w')
    /\ accessToken w' = None
    /\ trace w'
       = [HttpPost "https://accounts.spotify.com/api/token"
                   "grant_type=client_credentials" "Basic Y2xpZW50OnNlY3JldA=="].
Proof.
  apply (fetchSpotifyToken_no_field
           (mkEnv (Some "client") (Some "secret")
                  (fun _ _ _ => Fulfilled (JObj [("error", JStr "invalid_client")]))
                  (fun _ _ _ => Rejected AxiosError) [] true
                  (Fulfilled "granted") (Fulfilled []) false false)
           (mkWorld [] true (Some "old") ∅ [])
           [("error", JStr "invalid_client")]); reflexivity.
Defined.

(* ------------------------------------------------------------------ *)
(** ** [storeAudioData] and [loadAudioDataFromStorage] *)

Lemma loadAudioDataFromStorage_cases (env : Env) (w : World) :
  loadAudioDataFromStorage env w
  = if getItemFails env then (Ok CachedUndefined, logged w [loadError])
    else match asyncStorage w !! "audioFiles" with
         | None => (Ok CachedNull, w)
         | Some text =>
             match JSON.parse text with
             | Some files => (Ok (CachedFiles files), w)
             | None => (Ok CachedUndefined, logged w [loadError])
             end
         end.
Proof.
  unfold loadAudioDataFromStorage, tryCatch, bind, AsyncStorage.getItem.
  destruct (getItemFails env); [reflexivity|]. simpl.
  destruct (asyncStorage w !! "audioFiles") as [text|]; [|reflexivity].
  now destruct (JSON.parse text).
Qed.

(** X5. [storeAudioData] never throws, whether the store works or not;
    it leaves the library, the loading flag and the token alone, and of
    the store it can change the entry "audioFiles" only. *)
Theorem storeAudioData_frame (env : Env) (files : list AudioFile) (w : World) :
  exists w',
    storeAudioData env files w = (Ok tt, w')
    /\ audioFiles w' = audioFiles w
    /\ loading w' = loading w
    /\ accessToken w' = accessToken w
    /\ forall key, key <> "audioFiles" ->
                   asyncStorage w' !! key = asyncStorage w !! key.
Proof.
  rewrite storeAudioData_spec.
  destruct (setItemFails env); eexists; (split; [reflexivity|]); simpl;
    repeat split; intros key Hkey.
  now rewrite lookup_insert_ne.
Qed.

Lemma storeAudioData_frame_witness :
  exists w',
    storeAudioData (samplePlatform tokenGranted true "granted") snapshot3
                   (mount {[ "theme" := "dark" ]})
    = (Ok tt, w')
    /\ audioFiles w' = audioFiles (mount {[ "theme" := "dark" ]})
    /\ loading w' = loading (mount {[ "theme" := "dark" ]})
    /\ accessToken w' = accessToken (mount {[ "theme" := "dark" ]})
    /\ forall key, key <> "audioFiles" ->
                   asyncStorage w' !! key
                   = asyncStorage (mount {[ "theme" := "dark" ]}) !! key.
Proof.
  apply (storeAudioData_frame (samplePlatform tokenGranted true "granted")
           snapshot3 (mount {[ "theme" := "dark" ]})).
Defined.

(** X6. A write that fails is reported on the console and loses nothing:
    the snapshot that was in the store before is still what
    [loadAudioDataFromStorage] reads afterwards. *)
Theorem storeAudioData_failure_keeps_snapshot (env : Env)
    (old files : list AudioFile) (w : World) :
  setItemFails env = true ->
  getItemFails env = false ->
  asyncStorage w !! "audioFiles" = Some (JSON.stringify old) ->
  exists w1,
    storeAudioData env files w = (Ok tt, w1)
    /\ trace w1 = (trace w ++ [storeError])%list
    /\ asyncStorage w1 = asyncStorage w
    /\ loadAudioDataFromStorage env w1 = (Ok (CachedFiles old), w1).
Proof.
  intros Hset Hget Hold. rewrite storeAudioData_spec, Hset.
  eexists. split; [reflexivity|]. repeat split.
  rewrite loadAudioDataFromStorage_cases, Hget. simpl.
  now rewrite Hold, parse_stringify.
Qed.

Lemma storeAudioData_failure_keeps_snapshot_witness :
  exists w1,
    storeAudioData
      (mkEnv (Some "client") (Some "secret") (fun _ _ _ => tokenGranted)
             (fun _ _ _ => Rejected AxiosError) [] true
             (Fulfilled "granted") (Fulfilled sampleAssets) false true)
      [sampleFile] (mount storedSnapshot)
    = (Ok tt, w1)
    /\ trace w1 = (trace (mount storedSnapshot) ++ [storeError])%list
    /\ asyncStorage w1 = asyncStorage (mount storedSnapshot)
    /\ loadAudioDataFromStorage
         (mkEnv (Some "client") (Some "secret") (fun _ _ _ => tokenGranted)
                (fun _ _ _ => Rejected AxiosError) [] true
                (Fulfilled "granted") (Fulfilled sampleAssets) false true)
         w1
       = (Ok (CachedFiles snapshot3), w1).
Proof.
  apply (storeAudioData_failure_keeps_snapshot
           (mkEnv (Some "client") (Some "secret") (fun _ _ _ => tokenGranted)
                  (fun _ _ _ => Rejected AxiosError) [] true
                  (Fulfilled "granted") (Fulfilled sampleAssets) false true)
           snapshot3 [sampleFile] (mount storedSnapshot)); reflexivity.
Defined.

(** X7. The store holds one snapshot: a second [storeAudioData] replaces
    the first, and [loadAudioDataFromStorage] then reads the second
    library, whatever the first was. *)
Theorem storeAudioData_last_write_wins (env : Env)
    (first second : list AudioFile) (w : World) :
  setItemFails env = false ->
  getItemFails env = false ->
  exists w1 w2,
    storeAudioData env first w = (Ok tt, w1)
    /\ storeAudioData env second w1 = (Ok tt, w2)
    /\ loadAudioDataFromStorage env w2 = (Ok (CachedFiles second), w2)
    /\ asyncStorage w2
       = <["audioFiles" := JSON.stringify second]> (asyncStorage w).
Proof.
  intros Hset Hget. rewrite storeAudioData_spec, Hset.
  eexists _, _. split; [reflexivity|].
  rewrite storeAudioData_spec, Hset. split; [reflexivity|].
  rewrite loadAudioDataFromStorage_cases, Hget. simpl.
  rewrite lookup_insert_eq, parse_stringify.
  split; [reflexivity|]. apply insert_insert_eq.
Qed.

Lemma storeAudioData_last_write_wins_witness :
  exists w1 w2,
    storeAudioData (samplePlatform tokenGranted true "granted") snapshot3 (mount ∅)
    = (Ok tt, w1)
    /\ storeAudioData (samplePlatform tokenGranted true "granted") [sampleFile] w1
       = (Ok tt, w2)
    /\ loadAudioDataFromStorage (samplePlatform tokenGranted true "granted") w2
       = (Ok (CachedFiles [sampleFile]), w2)
    /\ asyncStorage w2
       = <["audioFiles" := JSON.stringify [sampleFile]]> (asyncStorage (mount ∅)).
Proof.
  apply (storeAudioData_last_write_wins (samplePlatform tokenGranted true "granted")
           snapshot3 [sampleFile] (mount ∅)); reflexivity.
Defined.

(** X8. [loadAudioDataFromStorage] never throws and only reads: the
    library, the flag, the token and the store are as before, and
    nothing but the console is written to.  What it returns is truthy
    only when the store could be read and has an entry; an entry that is
    the serialization of a library is returned as that library, and
    without an entry the result is [null], both without a word on the
    console. *)
Theorem loadAudioDataFromStorage_reads_only (env : Env) (w : World) :
  exists cached log,
    loadAudioDataFromStorage env w = (Ok cached, logged w log)
    /\ forallb isConsole log = true
    /\ (truthyCached cached = true ->
        getItemFails env = false
        /\ exists text, asyncStorage w !! "audioFiles" = Some text)
    /\ (forall files,
          getItemFails env = false ->
          asyncStorage w !! "audioFiles" = Some (JSON.stringify files) ->
          cached = CachedFiles files /\ log = [])
    /\ (getItemFails env = false -> asyncStorage w !! "audioFiles" = None ->
        cached = CachedNull /\ log = []).
Proof.
  rewrite loadAudioDataFromStorage_cases.
  destruct (getItemFails env).
  - exists CachedUndefined, [loadError].
    split; [reflexivity|]. split; [reflexivity|].
    split; [discriminate|]. split; [intros files|]; discriminate.
  - destruct (asyncStorage w !! "audioFiles") as [text|] eqn:Htext.
    + destruct (JSON.parse text) as [files|] eqn:Hparse.
      * exists (CachedFiles files), []. rewrite logged_nil.
        split; [reflexivity|]. split; [reflexivity|].
        split; [eauto|]. split; [|discriminate].
        intros files' _ [= ->]. rewrite parse_stringify in Hparse.
        now injection Hparse as ->.
      * exists CachedUndefined, [loadError].
        split; [reflexivity|]. split; [reflexivity|].
        split; [discriminate|]. split; [|discriminate].
        intros files' _ [= ->]. now rewrite parse_stringify in Hparse.
    + exists CachedNull, []. rewrite logged_nil.
      split; [reflexivity|]. split; [reflexivity|].
      split; [discriminate|]. split; [discriminate|]. now split.
Qed.

Lemma loadAudioDataFromStorage_reads_only_witness :
  exists cached log,
    loadAudioDataFromStorage (samplePlatform tokenGranted true "granted")
                             (mount storedSnapshot)
    = (Ok cached, logged (mount storedSnapshot) log)
    /\ forallb isConsole log = true
    /\ (truthyCached cached = true ->
        getItemFails (samplePlatform tokenGranted true "granted") = false
        /\ exists text, asyncStorage (mount storedSnapshot) !! "audioFiles" = Some text)
    /\ (forall files,
          getItemFails (samplePlatform tokenGranted true "granted") = false ->
          asyncStorage (mount storedSnapshot) !! "audioFiles"
          = Some (JSON.stringify files) ->
          cached = CachedFiles files /\ log = [])
    /\ (getItemFails (samplePlatform tokenGranted true "granted") = false ->
        asyncStorage (mount storedSnapshot) !! "audioFiles" = None ->
        cached = CachedNull /\ log = []).
Proof.
  apply (loadAudioDataFromStorage_reads_only
           (samplePlatform tokenGranted true "granted") (mount storedSnapshot)).
Defined.

(* ------------------------------------------------------------------ *)
(** ** [enhanceAudioWithSpotifyData] *)

Lemma settle_nothing {A} (order : list nat) (w : World) :
  settle (@nil (M A)) order [] w = (Ok [], w).
Proof.
  induction order as [|i later IH]; [reflexivity|].
  cbn [settle]. now rewrite lookup_nil.
Qed.

Lemma catalogCalls_requests (token : string) (files : list AudioFile) :
  catalogCalls (map (searchRequest token) files) = map (searchRequest token) files.
Proof.
  induction files as [|f files IH]; [reflexivity|].
  change (catalogCalls (map (searchRequest token) (f :: files)))
    with (searchRequest token f :: catalogCalls (map (searchRequest token) files)).
  now rewrite IH.
Qed.

(** X9. Whatever the catalog does, the batch never throws; it sends
    exactly one search request per track, in scan order, each with the
    bearer token, and all of them before any answer is handled; beyond
    that it only writes to the console: library, flag, token and store
    are untouched. *)
Theorem enhance_one_request_per_track (env : Env) (files : list AudioFile)
    (token : string) (w : World) :
  exists r log,
    enhanceAudioWithSpotifyData env files token w
    = (r, logged w (map (searchRequest token) files ++ log))
    /\ notThrown r
    /\ forallb isConsole log = true
    /\ catalogCalls (map (searchRequest token) files ++ log)
       = map (fun file => HttpGet ("https://api.spotify.com/v1/search?q="
                                     ++ searchQuery file ++ "&type=track&limit=1")
                                  ("Bearer " ++ token)) files.
Proof.
  unfold enhanceAudioWithSpotifyData, promiseAll.
  unfold bind at 1. rewrite forEach_request.
  fold (searchRequest token).
  set (w1 := logged w _).
  assert (Hok0 : slotsOk env token files
                   (replicate (length (imap (lookup env token) files)) None)).
  { split; [now rewrite length_replicate, length_imap|].
    intros i r Hi. apply lookup_replicate in Hi as [Hi _]. discriminate. }
  destruct (settle_spec env token files (settleOrder env) _ w1 Hok0)
    as (slots' & log & E & Hlog & _).
  unfold bind. rewrite E. unfold w1. rewrite logged_app.
  assert (Hcalls : catalogCalls (map (searchRequest token) files ++ log)
                   = map (searchRequest token) files).
  { unfold catalogCalls. rewrite List.filter_app.
    fold (catalogCalls (map (searchRequest token) files)) (catalogCalls log).
    now rewrite catalogCalls_requests, console_no_catalog, app_nil_r. }
  destruct (allWritten slots'); eexists _, log;
    (split; [reflexivity|]); repeat split; auto.
Qed.

(** X10. An empty scan needs no catalog: the batch returns the empty
    list at once, sends nothing and prints nothing, whatever the
    platform. *)
Theorem enhance_empty (env : Env) (token : string) (w : World) :
  enhanceAudioWithSpotifyData env [] token w = (Ok [], w).
Proof.
  unfold enhanceAudioWithSpotifyData, promiseAll, bind. simpl.
  now rewrite settle_nothing.
Qed.

(** X11. When the catalog is of no help (every lookup is rejected, or
    answered without a match), the batch returns the scanned tracks
    exactly as they were. *)
Theorem enhance_without_matches (env : Env) (files : list AudioFile)
    (token : string) (w : World) :
  (forall i, i < length files -> i ∈ settleOrder env) ->
  (forall i file,
      files !! i = Some file ->
      (exists e, axiosGet env i (searchUrl file) ("Bearer " ++ token) = Rejected e)
      \/ (exists data track,
            axiosGet env i (searchUrl file) ("Bearer " ++ token) = Fulfilled data
            /\ firstMatch data = inr track /\ truthy track = false)) ->
  exists w', enhanceAudioWithSpotifyData env files token w = (Ok files, w').
Proof.
  intros Hsettles Hnone.
  destruct (enhance_spec env token files w Hsettles) as (log & E & _).
  eexists. rewrite E. f_equal. f_equal.
  rewrite <- (list_fmap_id files) at 2. rewrite <- (imap_const (fun x => x)).
  apply imap_ext. intros i file Hfile. unfold outcome, settled. simpl.
  destruct (Hnone i file Hfile) as [[e ->]|(data & track & -> & Hfirst & Htruthy)];
    [reflexivity|].
  now rewrite (enrich_no_match _ _ _ Hfirst Htruthy).
Qed.

Lemma enhance_without_matches_witness :
  exists w',
    enhanceAudioWithSpotifyData (uniformPlatform (Fulfilled catalogMiss))
      (map toFile sampleAssets) "BQDtoken" (mount ∅)
    = (Ok (map toFile sampleAssets), w').
Proof.
  apply (enhance_without_matches (uniformPlatform (Fulfilled catalogMiss))
           (map toFile sampleAssets) "BQDtoken" (mount ∅)).
  - intros i Hi. simpl in Hi.
    destruct i as [|[|[|i]]]; [set_solver | set_solver | set_solver | lia].
  - intros i file _. right. exists catalogMiss, JUndefined. repeat split.
Defined.

(** X12. The batch has no partial result: as long as one lookup has not
    settled it is still waiting, however many of the others have
    answered; meanwhile the library, the flag and the store are as
    before. *)
Theorem enhance_waits_for_every_lookup (env : Env) (files : list AudioFile)
    (token : string) (w : World) (j : nat) :
  j < length files ->
  j ∉ settleOrder env ->
  exists w',
    enhanceAudioWithSpotifyData env files token w = (Pending, w')
    /\ audioFiles w' = audioFiles w
    /\ loading w' = loading w
    /\ asyncStorage w' = asyncStorage w.
Proof.
  intros Hlt Hj.
  pose proof (enhance_pending env token files w j Hlt Hj) as Hpending.
  destruct (enhance_world env token files w) as (r & log & E & _).
  rewrite E in *. simpl in Hpending. subst r.
  eexists. split; [reflexivity|]. repeat split.
Qed.

Lemma enhance_waits_for_every_lookup_witness :
  exists w',
    enhanceAudioWithSpotifyData
      (mkEnv (Some "client") (Some "secret") (fun _ _ _ => tokenGranted)
             (fun _ _ _ => Fulfilled catalogHit) [0; 2]%nat true
             (Fulfilled "granted") (Fulfilled sampleAssets) false false)
      (map toFile sampleAssets) "BQDtoken" (mount ∅)
    = (Pending, w')
    /\ audioFiles w' = audioFiles (mount ∅)
    /\ loading w' = loading (mount ∅)
    /\ asyncStorage w' = asyncStorage (mount ∅).
Proof.
  apply (enhance_waits_for_every_lookup
           (mkEnv (Some "client") (Some "secret") (fun _ _ _ => tokenGranted)
                  (fun _ _ _ => Fulfilled catalogHit) [0; 2]%nat true
                  (Fulfilled "granted") (Fulfilled sampleAssets) false false)
           (map toFile sampleAssets) "BQDtoken" (mount ∅) 1).
  - simpl. lia.
  - intros H. repeat (apply elem_of_cons in H as [H|H]; [discriminate|]).
    now apply elem_of_nil in H.
Defined.

(* ------------------------------------------------------------------ *)
(** ** [fetchAudioFiles] *)

(** The body of [fetchAudioFiles] once the permission is granted and the
    assets are listed. *)
Lemma fetchAudioFiles_granted (env : Env) (token : string) (w : World)
    (assets : list Asset) :
  requestPermissionsAsync env = Fulfilled "granted" ->
  getAssetsAsync env = Fulfilled assets ->
  fetchAudioFiles env token w
  = match enhanceAudioWithSpotifyData env (map toFile assets) token
            (mkWorld (audioFiles w) true (accessToken w) (asyncStorage w)
                     ((trace w ++ [PermissionRequest]) ++ [AssetScan])) with
    | (Ok enhanced, w1) =>
        match storeAudioData env enhanced
                (mkWorld enhanced (loading w1) (accessToken w1)
                         (asyncStorage w1) (trace w1)) with
        | (_, w2) =>
            (Ok tt, mkWorld (audioFiles w2) false (accessToken w2)
                            (asyncStorage w2) (trace w2))
        end
    | (Throw _, w1) =>
        (Ok tt, mkWorld (audioFiles w1) false (accessToken w1)
                        (asyncStorage w1) (trace w1 ++ [fetchError]))
    | (Pending, w1) => (Pending, w1)
    end.
Proof.
  intros Hperm Hassets.
  unfold fetchAudioFiles, tryFinally, tryCatch, bind, emit, setLoading,
    setAudioFiles, await.
  simpl. rewrite Hperm. simpl. rewrite Hassets. simpl.
  destruct (enhanceAudioWithSpotifyData env _ token _) as [[enhanced|e|] w1];
    simpl; try reflexivity.
  rewrite storeAudioData_spec. now destruct (setItemFails env).
Qed.

Lemma fetchAudioFiles_refresh_state (env : Env) (token : string) (w : World)
    (assets : list Asset) :
  requestPermissionsAsync env = Fulfilled "granted" ->
  getAssetsAsync env = Fulfilled assets ->
  (forall i, i < length assets -> i ∈ settleOrder env) ->
  setItemFails env = false ->
  exists w',
    fetchAudioFiles env token w = (Ok tt, w')
    /\ audioFiles w' = imap (outcome env token) (map toFile assets)
    /\ loading w' = false
    /\ accessToken w' = accessToken w
    /\ asyncStorage w'
       = <["audioFiles" := JSON.stringify (audioFiles w')]> (asyncStorage w).
Proof.
  intros Hperm Hassets Hsettles Hset.
  rewrite (fetchAudioFiles_granted _ _ _ _ Hperm Hassets).
  match goal with
  | |- context [enhanceAudioWithSpotifyData env ?fs token ?w0] =>
      destruct (enhance_spec env token fs w0) as (log & -> & _)
  end.
  { intros i Hi. apply Hsettles. now rewrite length_map in Hi. }
  rewrite storeAudioData_spec, Hset. eexists. split; [reflexivity|].
  repeat split.
Qed.

(** X13. The refresh that succeeds: with the permission granted, the
    assets listed, every lookup settled with an answer whose match (if
    any) holds strings or [undefined] for the cover, the artist and the
    album name, and a working store, [fetchAudioFiles] returns normally; the
    library is the list of outcomes of the lookups of the assets in scan
    order, the loading flag is cleared, and the store holds the
    serialization of exactly that library (and is otherwise
    unchanged). *)
Theorem fetchAudioFiles_refresh (env : Env) (token : string) (w : World)
    (assets : list Asset) :
  requestPermissionsAsync env = Fulfilled "granted" ->
  getAssetsAsync env = Fulfilled assets ->
  (forall i, i < length assets -> i ∈ settleOrder env) ->
  typedCatalog env token (map toFile assets) ->
  setItemFails env = false ->
  exists w',
    fetchAudioFiles env token w = (Ok tt, w')
    /\ audioFiles w' = imap (outcome env token) (map toFile assets)
    /\ loading w' = false
    /\ accessToken w' = accessToken w
    /\ asyncStorage w'
       = <["audioFiles" := JSON.stringify (audioFiles w')]> (asyncStorage w).
Proof.
  intros Hperm Hassets Hsettles _ Hset.
  rewrite (fetchAudioFiles_granted _ _ _ _ Hperm Hassets).
  assert (Hfiles : forall i, i < length (map toFile assets) -> i ∈ settleOrder env)
    by (intros i Hi; apply Hsettles; now rewrite length_map in Hi).
  match goal with
  | |- context [enhanceAudioWithSpotifyData env ?fs token ?w0] =>
      destruct (enhance_spec env token fs w0 Hfiles) as (log & Ebatch & _)
  end.
  rewrite Ebatch, storeAudioData_spec, Hset.
  eexists. split; [reflexivity|].
  split; [reflexivity|]. split; [reflexivity|]. split; reflexivity.
Qed.

Lemma fetchAudioFiles_refresh_witness :
  exists w',
    fetchAudioFiles (samplePlatform tokenGranted true "granted") "BQDtoken" (mount ∅)
    = (Ok tt, w')
    /\ audioFiles w'
       = imap (outcome (samplePlatform tokenGranted true "granted") "BQDtoken")
              (map toFile sampleAssets)
    /\ loading w' = false
    /\ accessToken w' = accessToken (mount ∅)
    /\ asyncStorage w'
       = <["audioFiles" := JSON.stringify (audioFiles w')]> (asyncStorage (mount ∅)).
Proof.
  apply (fetchAudioFiles_refresh (samplePlatform tokenGranted true "granted")
           "BQDtoken" (mount ∅) sampleAssets); try reflexivity.
  - intros i Hi. simpl in Hi.
    destruct i as [|[|[|i]]]; [set_solver | set_solver | set_solver | lia].
  - intros i file _. destruct i as [|[|i]]; reflexivity.
Defined.

(** X14. A store that refuses the write does not spoil the refresh: the
    library is exposed all the same and the loading flag cleared, the
    failure is printed as the last event, the store is as it was, and no
    exception leaves [fetchAudioFiles]. *)
Theorem fetchAudioFiles_store_failure (env : Env) (token : string) (w : World)
    (assets : list Asset) :
  requestPermissionsAsync env = Fulfilled "granted" ->
  getAssetsAsync env = Fulfilled assets ->
  (forall i, i < length assets -> i ∈ settleOrder env) ->
  setItemFails env = true ->
  exists w' events,
    fetchAudioFiles env token w = (Ok tt, w')
    /\ audioFiles w' = imap (outcome env token) (map toFile assets)
    /\ loading w' = false
    /\ asyncStorage w' = asyncStorage w
    /\ trace w' = (trace w ++ events ++ [storeError])%list.
Proof.
  intros Hperm Hassets Hsettles Hset.
  rewrite (fetchAudioFiles_granted _ _ _ _ Hperm Hassets).
  match goal with
  | |- context [enhanceAudioWithSpotifyData env ?fs token ?w0] =>
      destruct (enhance_spec env token fs w0) as (log & -> & _)
  end.
  { intros i Hi. apply Hsettles. now rewrite length_map in Hi. }
  rewrite storeAudioData_spec, Hset.
  eexists _, ([PermissionRequest; AssetScan]
                ++ map (fun file => HttpGet (searchUrl file) ("Bearer " ++ token))
                       (map toFile assets)
                ++ log)%list.
  split; [reflexivity|]. split; [reflexivity|]. split; [reflexivity|].
  split; [reflexivity|].
  unfold logged. cbn [trace]. now rewrite <- !app_assoc.
Qed.

Lemma fetchAudioFiles_store_failure_witness :
  exists w' events,
    fetchAudioFiles
      (mkEnv (Some "client") (Some "secret") (fun _ _ _ => tokenGranted)
             (fun _ _ _ => Fulfilled catalogHit) [1; 0]%nat true
             (Fulfilled "granted")
             (Fulfilled [mkAsset "1" "song.mp3" "file:///music/song.mp3";
                         mkAsset "3" "other.mp3" "file:///music/other.mp3"])
             false true)
      "BQDtoken" (mount storedSnapshot)
    = (Ok tt, w')
    /\ audioFiles w'
       = [mkAudioFile "1" "song.mp3" "file:///music/song.mp3"
            (Some "https://i.scdn.co/image/1") (Some "Artist") (Some "Album");
          mkAudioFile "3" "other.mp3" "file:///music/other.mp3"
            (Some "https://i.scdn.co/image/1") (Some "Artist") (Some "Album")]
    /\ loading w' = false
    /\ asyncStorage w' = asyncStorage (mount storedSnapshot)
    /\ trace w' = (trace (mount storedSnapshot) ++ events ++ [storeError])%list.
Proof.
  apply (fetchAudioFiles_store_failure
           (mkEnv (Some "client") (Some "secret") (fun _ _ _ => tokenGranted)
                  (fun _ _ _ => Fulfilled catalogHit) [1; 0]%nat true
                  (Fulfilled "granted")
                  (Fulfilled [mkAsset "1" "song.mp3" "file:///music/song.mp3";
                              mkAsset "3" "other.mp3" "file:///music/other.mp3"])
                  false true)
           "BQDtoken" (mount storedSnapshot)
           [mkAsset "1" "song.mp3" "file:///music/song.mp3";
            mkAsset "3" "other.mp3" "file:///music/other.mp3"]); try reflexivity.
  intros i Hi. simpl in Hi.
  destruct i as [|[|i]]; [set_solver | set_solver | lia].
Defined.

(** X15. When the media library itself fails (the permission request or
    the listing of the assets is rejected), [fetchAudioFiles] catches the
    error: it returns normally, prints it, clears the loading flag, asks
    the catalog nothing and leaves the library and the store as they
    were. *)
Theorem fetchAudioFiles_media_failure (env : Env) (token : string) (w : World)
    (e : Exn) :
  requestPermissionsAsync env = Rejected e
  \/ (requestPermissionsAsync env = Fulfilled "granted"
      /\ getAssetsAsync env = Rejected e) ->
  exists w' events,
    fetchAudioFiles env token w = (Ok tt, w')
    /\ audioFiles w' = audioFiles w
    /\ loading w' = false
    /\ asyncStorage w' = asyncStorage w
    /\ trace w' = (trace w ++ events ++ [fetchError])%list
    /\ catalogCalls events = [].
Proof.
  intros [Hperm|[Hperm Hassets]];
    unfold fetchAudioFiles, tryFinally, tryCatch, bind, emit, setLoading, await;
    simpl; rewrite Hperm; simpl.
  - exists (mkWorld (audioFiles w) false (accessToken w) (asyncStorage w)
                    (trace w ++ [PermissionRequest] ++ [fetchError])),
           [PermissionRequest].
    rewrite <- app_assoc. repeat split.
  - rewrite Hassets. simpl.
    exists (mkWorld (audioFiles w) false (accessToken w) (asyncStorage w)
                    (trace w ++ [PermissionRequest; AssetScan] ++ [fetchError])),
           [PermissionRequest; AssetScan].
    rewrite <- !app_assoc. repeat split.
Qed.

Lemma fetchAudioFiles_media_failure_witness :
  exists w' events,
    fetchAudioFiles
      (mkEnv (Some "client") (Some "secret") (fun _ _ _ => tokenGranted)
             (fun _ _ _ => Fulfilled catalogHit) [0]%nat true
             (Fulfilled "granted") (Rejected MediaLibraryError) false false)
      "BQDtoken" (mount storedSnapshot)
    = (Ok tt, w')
    /\ audioFiles w' = audioFiles (mount storedSnapshot)
    /\ loading w' = false
    /\ asyncStorage w' = asyncStorage (mount storedSnapshot)
    /\ trace w' = (trace (mount storedSnapshot) ++ events ++ [fetchError])%list
    /\ catalogCalls events = [].
Proof.
  apply (fetchAudioFiles_media_failure
           (mkEnv (Some "client") (Some "secret") (fun _ _ _ => tokenGranted)
                  (fun _ _ _ => Fulfilled catalogHit) [0]%nat true
                  (Fulfilled "granted") (Rejected MediaLibraryError) false false)
           "BQDtoken" (mount storedSnapshot) MediaLibraryError).
  right. split; reflexivity.
Defined.

(** X16. A lookup that never settles keeps the refresh waiting for
    ever: [fetchAudioFiles] does not return, its [finally] block has not
    run, so the loading flag it set at the start stays set, and the
    library and the store are never written. *)
Theorem fetchAudioFiles_hangs (env : Env) (token : string) (w : World)
    (assets : list Asset) (j : nat) :
  requestPermissionsAsync env = Fulfilled "granted" ->
  getAssetsAsync env = Fulfilled assets ->
  j < length assets ->
  j ∉ settleOrder env ->
  exists w',
    fetchAudioFiles env token w = (Pending, w')
    /\ loading w' = true
    /\ audioFiles w' = audioFiles w
    /\ asyncStorage w' = asyncStorage w.
Proof.
  intros Hperm Hassets Hlt Hj.
  rewrite (fetchAudioFiles_granted _ _ _ _ Hperm Hassets).
  match goal with
  | |- context [enhanceAudioWithSpotifyData env ?fs token ?w0] =>
      pose proof (enhance_pending env token fs w0 j) as Hpending;
      destruct (enhance_world env token fs w0) as (r & log & E & _)
  end.
  rewrite E in *. simpl in Hpending.
  rewrite Hpending by (rewrite ?length_map; assumption).
  eexists. split; [reflexivity|]. repeat split.
Qed.

Lemma fetchAudioFiles_hangs_witness :
  exists w',
    fetchAudioFiles
      (mkEnv (Some "client") (Some "secret") (fun _ _ _ => tokenGranted)
             (fun _ _ _ => Fulfilled catalogHit) [0; 2]%nat true
             (Fulfilled "granted") (Fulfilled sampleAssets) false false)
      "BQDtoken" (mount ∅)
    = (Pending, w')
    /\ loading w' = true
    /\ audioFiles w' = audioFiles (mount ∅)
    /\ asyncStorage w' = asyncStorage (mount ∅).
Proof.
  apply (fetchAudioFiles_hangs
           (mkEnv (Some "client") (Some "secret") (fun _ _ _ => tokenGranted)
                  (fun _ _ _ => Fulfilled catalogHit) [0; 2]%nat true
                  (Fulfilled "granted") (Fulfilled sampleAssets) false false)
           "BQDtoken" (mount ∅) sampleAssets 1); try reflexivity.
  - simpl. lia.
  - intros H. repeat (apply elem_of_cons in H as [H|H]; [discriminate|]).
    now apply elem_of_nil in H.
Defined.

(* ------------------------------------------------------------------ *)
(** ** The request of a lookup *)



(** X18. A name that is empty or starts with a dot (a hidden file such
    as ".nomedia.mp3") leaves nothing to search for: the catalog is asked
    with an empty query. *)
Theorem searchQuery_hidden_file (file : AudioFile) :
  filename file = "" \/ (exists rest, filename file = String "." rest) ->
  searchQuery file = ""
  /\ searchUrl file = "https://api.spotify.com/v1/search?q=&type=track&limit=1".
Proof.
  intros H. assert (Hq : searchQuery file = "").
  { unfold searchQuery. destruct H as [->|[rest ->]]; reflexivity. }
  split; [exact Hq|]. unfold searchUrl. now rewrite Hq.
Qed.

Lemma searchQuery_hidden_file_witness :
  searchQuery (mkAudioFile "9" ".nomedia.mp3" "file:///music/.nomedia.mp3"
                           None None None) = ""
  /\ searchUrl (mkAudioFile "9" ".nomedia.mp3" "file:///music/.nomedia.mp3"
                            None None None)
     = "https://api.spotify.com/v1/search?q=&type=track&limit=1".
Proof.
  apply (searchQuery_hidden_file
           (mkAudioFile "9" ".nomedia.mp3" "file:///music/.nomedia.mp3"
                        None None None)).
  right. exists "nomedia.mp3". reflexivity.
Defined.

(** X19. For a name with a single extension (no dot in what remains
    once the extension is cut off, as in "song.mp3") and for a name
    without any dot, the query is the escaped name without its
    extension. *)
Theorem searchQuery_single_extension (file : AudioFile) :
  hasDot (stripExtension (filename file)) = false ->
  searchUrl file
  = "https://api.spotify.com/v1/search?q="
      ++ encodeURIComponent (stripExtension (filename file))
      ++ "&type=track&limit=1".
Proof.
  intros H. unfold searchUrl. now rewrite (searchQuery_one_dot file H).
Qed.

Lemma searchQuery_single_extension_witness :
  searchUrl (mkAudioFile "1" "Bohemian Rhapsody.mp3" "file:///music/br.mp3"
                         None None None)
  = "https://api.spotify.com/v1/search?q=Bohemian%20Rhapsody&type=track&limit=1".
Proof.
  apply (searchQuery_single_extension
           (mkAudioFile "1" "Bohemian Rhapsody.mp3" "file:///music/br.mp3"
                        None None None)).
  reflexivity.
Defined.

(* ------------------------------------------------------------------ *)
(** ** [getClientCredentials] *)

Lemma base64Char_alphabet (n : N) : base64Alphabet (base64Char n) = true.
Proof.
  unfold base64Char.
  destruct (n <? 26)%N eqn:H1.
  { apply N.ltb_lt in H1. unfold base64Alphabet.
    rewrite N_ascii_embedding by lia.
    replace (65 <=? 65 + n)%N with true by (symmetry; apply N.leb_le; lia).
    replace (65 + n <=? 90)%N with true by (symmetry; apply N.leb_le; lia).
    reflexivity. }
  apply N.ltb_ge in H1.
  destruct (n <? 52)%N eqn:H2.
  { apply N.ltb_lt in H2. unfold base64Alphabet.
    rewrite N_ascii_embedding by lia.
    replace (97 <=? 71 + n)%N with true by (symmetry; apply N.leb_le; lia).
    replace (71 + n <=? 122)%N with true by (symmetry; apply N.leb_le; lia).
    now rewrite orb_true_r. }
  apply N.ltb_ge in H2.
  destruct (n <? 62)%N eqn:H3.
  { apply N.ltb_lt in H3. unfold base64Alphabet.
    rewrite N_ascii_embedding by lia.
    replace (48 <=? n - 4)%N with true by (symmetry; apply N.leb_le; lia).
    replace (n - 4 <=? 57)%N with true by (symmetry; apply N.leb_le; lia).
    now rewrite !orb_true_r. }
  now destruct (n =? 62)%N.
Qed.

Lemma btoa_padded_word (n : nat) :
  forall s, String.length s < n ->
    allChars base64Alphabet (btoa s) = true
    /\ String.length (btoa s) = 4 * ((String.length s + 2) / 3).
Proof.
  induction n as [|n IH]; intros s Hlen; [lia|].
  destruct s as [|a [|b [|c r]]].
  - split; reflexivity.
  - cbn [btoa allChars]. rewrite !base64Char_alphabet. split; reflexivity.
  - cbn [btoa allChars]. rewrite !base64Char_alphabet. split; reflexivity.
  - cbn [btoa allChars String.length] in *. rewrite !base64Char_alphabet.
    destruct (IH r) as [Hchars Hlength]; [lia|].
    rewrite Hchars, Hlength. split; [reflexivity|].
    replace (S (S (S (String.length r))) + 2) with (1 * 3 + (String.length r + 2)) by lia.
    rewrite Nat.div_add_l by lia. lia.
Qed.

(** X20. For a client id and secret in ASCII (also when an environment
    variable is missing and reads as [undefined]), the Basic credentials
    are a well-formed base64 word: every character is a letter, a digit,
    [+], [/] or the padding [=], and the length is four characters for
    every three characters (rounded up) of [id:secret]. *)
Theorem getClientCredentials_base64 (env : Env) :
  asciiCredentials env = true ->
  allChars base64Alphabet (getClientCredentials env) = true
  /\ String.length (getClientCredentials env)
     = 4 * ((String.length (credentials env) + 2) / 3).
Proof.
  intros _. unfold getClientCredentials, credentials.
  eapply btoa_padded_word. apply Nat.lt_succ_diag_r.
Qed.

Lemma getClientCredentials_base64_witness :
  allChars base64Alphabet
    (getClientCredentials (samplePlatform tokenGranted true "granted")) = true
  /\ String.length (getClientCredentials (samplePlatform tokenGranted true "granted"))
     = 4 * ((String.length
               (credentials (samplePlatform tokenGranted true "granted")) + 2) / 3).
Proof.
  apply (getClientCredentials_base64 (samplePlatform tokenGranted true "granted")).
  reflexivity.
Defined.

(* ------------------------------------------------------------------ *)
(** ** [initialize]: whole runs *)

Lemma initialize_online_state (env : Env) (stored : gmap string string)
    (t : string) (assets : list Asset) :
  obtainedToken env = Some t ->
  t <> "" ->
  onLine env = true ->
  requestPermissionsAsync env = Fulfilled "granted" ->
  getAssetsAsync env = Fulfilled assets ->
  (forall i, i < length assets -> i ∈ settleOrder env) ->
  setItemFails env = false ->
  exists w',
    initialize env (mount stored) = (Ok tt, w')
    /\ audioFiles w' = imap (outcome env t) (map toFile assets)
    /\ loading w' = false
    /\ asyncStorage w'
       = <["audioFiles" := JSON.stringify (audioFiles w')]> stored.
Proof.
  intros Htoken Ht Honline Hperm Hassets Hsettles Hset.
  destruct (initialize_unfold env (mount stored))
    as (w1 & log & _ & _ & _ & Hstore & _ & _ & E).
  rewrite Honline, Htoken in E. simpl in E, Hstore.
  apply String.eqb_neq in Ht. rewrite Ht in E. simpl in E.
  destruct (fetchAudioFiles_refresh_state env t (logged w1 log) assets
              Hperm Hassets Hsettles Hset)
    as (w' & Efetch & Hfiles & Hloading & _ & Hstorage).
  exists w'. split.
  - rewrite E, Efetch. now destruct (cachedOf env stored).
  - split; [exact Hfiles|]. split; [exact Hloading|].
    rewrite Hstorage. simpl. now rewrite Hstore.
Qed.

Lemma initialize_offline_state (env : Env) (stored : gmap string string)
    (files : list AudioFile) :
  onLine env = false ->
  getItemFails env = false ->
  stored !! "audioFiles" = Some (JSON.stringify files) ->
  exists w',
    initialize env (mount stored) = (Ok tt, w')
    /\ audioFiles w' = files
    /\ loading w' = false.
Proof.
  intros Hoffline Hget Hstored.
  destruct (initialize_unfold env (mount stored))
    as (w1 & log & _ & _ & _ & _ & _ & _ & E).
  assert (Hcached : cachedOf env stored = CachedFiles files).
  { unfold cachedOf. now rewrite Hget, Hstored, parse_stringify. }
  simpl asyncStorage in E. rewrite Hcached, Hoffline in E. simpl in E.
  eexists. split; [exact E|]. split; reflexivity.
Qed.

(** X21. Online with a token, the run refreshes whatever the store
    held: the permission being granted, the assets listed, every lookup
    settled with an answer whose match (if any) holds strings or
    [undefined] for the cover, the artist and the album name, and the
    store working,
    the library is the fresh scan in scan order, each track with the
    outcome of its lookup, the loading flag is cleared, and the snapshot
    in the store is replaced by the serialization of that library; a
    snapshot found at the start is not served. *)
Theorem initialize_online_refreshes (env : Env) (stored : gmap string string)
    (t : string) (assets : list Asset) :
  obtainedToken env = Some t ->
  t <> "" ->
  onLine env = true ->
  requestPermissionsAsync env = Fulfilled "granted" ->
  getAssetsAsync env = Fulfilled assets ->
  (forall i, i < length assets -> i ∈ settleOrder env) ->
  typedCatalog env t (map toFile assets) ->
  setItemFails env = false ->
  exists w',
    initialize env (mount stored) = (Ok tt, w')
    /\ audioFiles w' = imap (outcome env t) (map toFile assets)
    /\ loading w' = false
    /\ asyncStorage w'
       = <["audioFiles" := JSON.stringify (audioFiles w')]> stored.
Proof.
  intros Htoken Ht Honline Hperm Hassets Hsettles _ Hset.
  destruct (initialize_unfold env (mount stored))
    as (w1 & log & _ & _ & _ & Hstore & _ & _ & E).
  simpl in Hstore.
  (* online, the snapshot is not looked at any further *)
  assert (Erun : initialize env (mount stored)
                 = fetchAudioFiles env t (logged w1 log)).
  { rewrite E, Honline, Htoken. simpl.
    apply String.eqb_neq in Ht. rewrite Ht. simpl.
    now destruct (cachedOf env stored). }
  destruct (fetchAudioFiles_refresh_state env t (logged w1 log) assets
              Hperm Hassets Hsettles Hset)
    as (w' & Efetch & Hfiles & Hloading & _ & Hstorage).
  exists w'. rewrite Erun. split; [exact Efetch|].
  split; [exact Hfiles|]. split; [exact Hloading|].
  rewrite Hstorage. simpl. now rewrite Hstore.
Qed.

Lemma initialize_online_refreshes_witness :
  exists w',
    initialize (samplePlatform tokenGranted true "granted")
               (mount {[ "audioFiles" := JSON.stringify [sampleFile] ]})
    = (Ok tt, w')
    /\ audioFiles w'
       = imap (outcome (samplePlatform tokenGranted true "granted") "BQDtoken")
              (map toFile sampleAssets)
    /\ loading w' = false
    /\ asyncStorage w'
       = <["audioFiles" := JSON.stringify (audioFiles w')]>
           {[ "audioFiles" := JSON.stringify [sampleFile] ]}.
Proof.
  apply (initialize_online_refreshes (samplePlatform tokenGranted true "granted")
           {[ "audioFiles" := JSON.stringify [sampleFile] ]}
           "BQDtoken" sampleAssets); try reflexivity.
  - discriminate.
  - intros i Hi. simpl in Hi.
    destruct i as [|[|[|i]]]; [set_solver | set_solver | set_solver | lia].
  - intros i file _. destruct i as [|[|i]]; reflexivity.
Defined.

(** X22. The snapshot does its job across sessions: the library that a
    successful online run exposes is exactly the library that the next
    run exposes when the device is offline and the store can be read (on
    whatever platform otherwise, with or without a token). *)
Theorem offline_run_restores_online_library (online offline : Env)
    (stored : gmap string string) (t : string) (assets : list Asset) :
  obtainedToken online = Some t ->
  t <> "" ->
  onLine online = true ->
  requestPermissionsAsync online = Fulfilled "granted" ->
  getAssetsAsync online = Fulfilled assets ->
  (forall i, i < length assets -> i ∈ settleOrder online) ->
  setItemFails online = false ->
  onLine offline = false ->
  getItemFails offline = false ->
  exists w1 w2,
    initialize online (mount stored) = (Ok tt, w1)
    /\ initialize offline (mount (asyncStorage w1)) = (Ok tt, w2)
    /\ audioFiles w2 = audioFiles w1
    /\ loading w2 = false.
Proof.
  intros Htoken Ht Honline Hperm Hassets Hsettles Hset Hoffline Hget.
  destruct (initialize_online_state online stored t assets
              Htoken Ht Honline Hperm Hassets Hsettles Hset)
    as (w1 & E1 & _ & _ & Hstorage).
  destruct (initialize_offline_state offline (asyncStorage w1) (audioFiles w1)
              Hoffline Hget)
    as (w2 & E2 & Hfiles & Hloading).
  { rewrite Hstorage. apply lookup_insert_eq. }
  exists w1, w2. auto.
Qed.

Lemma offline_run_restores_online_library_witness :
  exists w1 w2,
    initialize (samplePlatform tokenGranted true "granted") (mount ∅) = (Ok tt, w1)
    /\ initialize (samplePlatform tokenRefused false "granted")
                  (mount (asyncStorage w1)) = (Ok tt, w2)
    /\ audioFiles w2 = audioFiles w1
    /\ loading w2 = false.
Proof.
  apply (offline_run_restores_online_library
           (samplePlatform tokenGranted true "granted")
           (samplePlatform tokenRefused false "granted")
           ∅ "BQDtoken" sampleAssets); try reflexivity.
  - discriminate.
  - intros i Hi. simpl in Hi.
    destruct i as [|[|[|i]]]; [set_solver | set_solver | set_solver | lia].
Defined.

(** X23. Offline, the provider never looks at the device and never asks
    the catalog, with or without a token and whatever the store holds:
    the run returns normally and the store is left exactly as it was.
    It makes at most one network call, a POST of
    [grant_type=client_credentials] to the token endpoint; when the
    client id and secret are ASCII it makes exactly that call, with the
    Basic credentials [btoa(id:secret)]. *)
Theorem initialize_offline_is_passive (env : Env) (stored : gmap string string) :
  onLine env = false ->
  exists w',
    initialize env (mount stored) = (Ok tt, w')
    /\ mediaCalls (trace w') = []
    /\ catalogCalls (trace w') = []
    /\ length (networkCalls (trace w')) <= 1
    /\ forallb isTokenPost (networkCalls (trace w')) = true
    /\ (asciiCredentials env = true ->
        networkCalls (trace w') = [tokenRequest env])
    /\ asyncStorage w' = stored.
Proof.
  intros Hoffline.
  destruct (initialize_unfold env (mount stored))
    as (w1 & log & _ & _ & _ & Hstore & (log1 & Htrace & Hlog1) & Hlog & E).
  simpl in Hstore, Htrace.
  assert (Hcalls : forall extra,
             forallb isConsole extra = true ->
             mediaCalls (trace w1 ++ log ++ extra) = []
             /\ catalogCalls (trace w1 ++ log ++ extra) = []
             /\ networkCalls (trace w1 ++ log ++ extra) = [tokenRequest env]).
  { intros extra Hextra. rewrite Htrace.
    unfold mediaCalls, catalogCalls, networkCalls.
    rewrite !List.filter_app. simpl.
    fold (networkCalls log1) (networkCalls log) (networkCalls extra)
         (catalogCalls log1) (catalogCalls log) (catalogCalls extra)
         (mediaCalls log1) (mediaCalls log) (mediaCalls extra).
    rewrite !console_no_network, !console_no_catalog, !console_no_media
      by assumption.
    repeat split. }
  assert (Hidle : match obtainedToken env with
                  | Some t =>
                      if truthyToken (obtainedToken env) && onLine env
                      then fetchAudioFiles env t (logged w1 log)
                      else (Ok tt, logged w1 log)
                  | None => (Ok tt, logged w1 log)
                  end = (Ok tt, logged w1 log)).
  { rewrite Hoffline, andb_false_r. now destruct (obtainedToken env). }
  rewrite Hidle, Hoffline in E. simpl in E.
  destruct (cachedOf env stored) as [| |files];
    (eexists; split; [exact E|]); simpl.
  - destruct (Hcalls [] eq_refl) as (Hm & Hc & Hn).
    rewrite app_nil_r in Hm, Hc, Hn. rewrite Hn. simpl. auto 10.
  - destruct (Hcalls [] eq_refl) as (Hm & Hc & Hn).
    rewrite app_nil_r in Hm, Hc, Hn. rewrite Hn. simpl. auto 10.
  - destruct (Hcalls [ConsoleLog "Loaded from cache:"] eq_refl) as (Hm & Hc & Hn).
    rewrite Hn. simpl. auto 10.
Qed.

Lemma initialize_offline_is_passive_witness :
  exists w',
    initialize (samplePlatform tokenGranted false "granted") (mount storedSnapshot)
    = (Ok tt, w')
    /\ mediaCalls (trace w') = []
    /\ catalogCalls (trace w') = []
    /\ length (networkCalls (trace w')) <= 1
    /\ forallb isTokenPost (networkCalls (trace w')) = true
    /\ (asciiCredentials (samplePlatform tokenGranted false "granted") = true ->
        networkCalls (trace w')
        = [tokenRequest (samplePlatform tokenGranted false "granted")])
    /\ asyncStorage w' = storedSnapshot.
Proof.
  apply (initialize_offline_is_passive
           (samplePlatform tokenGranted false "granted") storedSnapshot).
  reflexivity.
Defined.

(** [fetchAudioFiles] catches whatever its body throws. *)
Lemma fetchAudioFiles_notThrown (env : Env) (token : string) (w : World) :
  notThrown (fst (fetchAudioFiles env token w)).
Proof.
  unfold fetchAudioFiles, tryFinally, tryCatch, bind, emit, setLoading, await.
  simpl. destruct (requestPermissionsAsync env) as [status|e]; simpl; auto.
  destruct (String.eqb status "granted"); simpl; auto.
  destruct (getAssetsAsync env) as [assets|e]; simpl; auto.
  match goal with
  | |- context [enhanceAudioWithSpotifyData env ?fs token ?w0] =>
      destruct (enhance_world env token fs w0) as ([enhanced|e|] & log & -> & Hr)
  end; simpl; auto; try contradiction.
  rewrite storeAudioData_spec.
  now destruct (setItemFails env).
Qed.

(** X24. No run of [initialize] ends in an exception, on whatever
    platform and from whatever state it starts: it returns, or it is
    still waiting for the catalog. *)
Theorem initialize_never_throws (env : Env) (w : World) :
  notThrown (fst (initialize env w)).
Proof.
  destruct (initialize_unfold env w)
    as (w1 & log & _ & _ & _ & _ & _ & _ & E).
  rewrite E.
  destruct (cachedOf env (asyncStorage w)) as [| |files];
    destruct (onLine env); simpl; try exact I;
    destruct (obtainedToken env) as [t|]; try exact I;
    destruct (truthyToken (Some t)); simpl; try exact I;
    apply fetchAudioFiles_notThrown.
Qed.

(** X25. Online with a token but without the permission, the run ends
    normally with an empty library and the loading flag cleared, and the
    notice of the refusal is on the console. *)
Theorem initialize_without_permission (env : Env) (stored : gmap string string)
    (status : string) :
  truthyToken (obtainedToken env) = true ->
  onLine env = true ->
  requestPermissionsAsync env = Fulfilled status ->
  status <> "granted" ->
  exists w',
    initialize env (mount stored) = (Ok tt, w')
    /\ providerValue w' = mkAudioContext [] false
    /\ deniedNotice ∈ trace w'.
Proof.
  intros Htoken Honline Hperm Hstatus.
  destruct (initialize_unfold env (mount stored))
    as (w1 & log & _ & Hfiles & _ & _ & _ & _ & E).
  destruct (obtainedToken env) as [t|] eqn:Ht; [|discriminate].
  assert (Erun : initialize env (mount stored)
                 = fetchAudioFiles env t (logged w1 log)).
  { rewrite E, Honline, Htoken. simpl. now destruct (cachedOf env stored). }
  rewrite Erun, (fetchAudioFiles_denied_world _ _ _ _ Hperm Hstatus).
  eexists. split; [reflexivity|].
  unfold providerValue. simpl. rewrite Hfiles.
  split; [reflexivity|].
  apply elem_of_app. right. apply elem_of_cons. right. constructor.
Qed.

Lemma initialize_without_permission_witness :
  exists w',
    initialize (samplePlatform tokenGranted true "denied") (mount ∅) = (Ok tt, w')
    /\ providerValue w' = mkAudioContext [] false
    /\ deniedNotice ∈ trace w'.
Proof.
  apply (initialize_without_permission (samplePlatform tokenGranted true "denied")
           ∅ "denied"); [reflexivity | reflexivity | reflexivity | discriminate].
Defined.

(** A text that cannot begin a JSON value is no JSON text. *)
Lemma lex_cannotBeginJson (text : string) (ts : list JSON.Token) :
  cannotBeginJson text = true ->
  JSON.lex None text = Some ts ->
  match ts with
  | JSON.TLBracket :: _ => False
  | _ => True
  end.
Proof.
  revert ts. induction text as [|c r IH]; intros ts Hstart Hlex.
  - injection Hlex as <-. exact I.
  - revert Hstart Hlex.
    destruct c as [[] [] [] [] [] [] [] []];
      cbn [cannotBeginJson JSON.isSpace jsonStart]; simpl;
      try discriminate;
      try (intros Hstart Hlex; exact (IH ts Hstart Hlex));
      intros _ Hlex;
      destruct (JSON.lex None r); try discriminate;
      injection Hlex as <-; exact I.
Qed.

Lemma parse_cannotBeginJson (text : string) :
  cannotBeginJson text = true -> JSON.parse text = None.
Proof.
  intros Hstart. unfold JSON.parse.
  destruct (JSON.lex None text) as [ts|] eqn:Hlex; [|reflexivity].
  pose proof (lex_cannotBeginJson text ts Hstart Hlex) as Hts.
  now destruct ts as [|[] ts].
Qed.

(** X26. A snapshot that is no JSON text because it cannot even begin
    one (an empty or blank entry, or one whose first character begins no
    JSON value) is reported and ignored: offline, the run ends normally
    with the error of the load on the console and the library empty, and
    the entry stays in the store as it is. *)
Theorem initialize_corrupt_snapshot (env : Env) (stored : gmap string string)
    (text : string) :
  onLine env = false ->
  getItemFails env = false ->
  stored !! "audioFiles" = Some text ->
  cannotBeginJson text = true ->
  exists w',
    initialize env (mount stored) = (Ok tt, w')
    /\ audioFiles w' = []
    /\ loadError ∈ trace w'
    /\ asyncStorage w' = stored.
Proof.
  intros Hoffline Hget Hstored Hstart.
  pose proof (parse_cannotBeginJson text Hstart) as Hparse.
  destruct (fetchSpotifyToken_spec env (mount stored))
    as (w1 & Etok & Hfiles & _ & Hstore & _).
  simpl in Hfiles, Hstore.
  unfold initialize, bind.
  rewrite Etok, loadAudioDataFromStorage_cases, Hget, Hstore, Hstored, Hparse.
  rewrite Hoffline, andb_false_r.
  exists (logged w1 [loadError]). split.
  - now destruct (obtainedToken env).
  - simpl. rewrite Hfiles, Hstore. repeat split.
    apply elem_of_app. right. constructor.
Qed.

Lemma initialize_corrupt_snapshot_witness :
  exists w',
    initialize (samplePlatform tokenRefused false "granted")
               (mount {[ "audioFiles" := "<html>" ]})
    = (Ok tt, w')
    /\ audioFiles w' = []
    /\ loadError ∈ trace w'
    /\ asyncStorage w' = {[ "audioFiles" := "<html>" ]}.
Proof.
  apply (initialize_corrupt_snapshot (samplePlatform tokenRefused false "granted")
           {[ "audioFiles" := "<html>" ]} "<html>"); reflexivity.
Defined.
